(** * Falcor's bloom post-process effect (Framework/Source/Effects/Bloom/Bloom.cpp)

    A shallow embedding of [Bloom::create], [Bloom::Bloom],
    [Bloom::updateLowResTexture], [Bloom::execute] and [Bloom::renderUI],
    and the properties of them that the specification states.

    The effect is glue over engine classes (textures, frame buffers, blend
    and sampler state, the render context, the GUI).  Their data is modelled
    by records, the GPU work they submit by a command list kept in the render
    context, and what the engine does behind an interface that this file
    never sees is a parameter ([Engine], [GuiOps]). *)

From Stdlib Require Import ZArith Lia Bool SpecFloat.
From stdpp Require Import base numbers option list gmap strings.

Open Scope Z_scope.

(* ===================================================================== *)
(** ** C++ scalars *)

(** [float] is IEEE-754 binary32, with the default rounding (to nearest,
    ties to even), and [float] expressions are evaluated in binary32, as
    on the x64 targets of the engine.  The operations are the Standard
    Library's executable specification of IEEE arithmetic at precision 24
    and [emax] 128. *)
Module Float32.

Definition prec : Z := 24.
Definition emax : Z := 128.

Definition float : Type := spec_float.

(** [(float)n] for an integer [n]. *)
Definition of_int (n : Z) : float := binary_normalize prec emax n 0 false.

(** [x / y] and [x * y] on [float]. *)
Definition div (x y : float) : float := SFdiv prec emax x y.
Definition mul (x y : float) : float := SFmul prec emax x y.

(** The integer part of a finite float's magnitude (rounding toward
    zero). *)
Definition trunc_mag (m : positive) (e : Z) : Z :=
  match e with
  | Zneg p => Z.shiftr (Zpos m) (Zpos p)
  | _ => Z.shiftl (Zpos m) e
  end.

(** [(uint32_t)x]: the value is truncated toward zero; the conversion has
    undefined behaviour ([None]) when the truncated value is not
    representable in [uint32_t], and for infinities and NaN. *)
Definition to_uint32 (x : float) : option Z :=
  match x with
  | S754_zero _ => Some 0
  | S754_finite s m e =>
      let t := trunc_mag m e in
      if s then (if t =? 0 then Some 0 else None)
      else if t <? 2 ^ 32 then Some t else None
  | S754_infinity _ | S754_nan => None
  end.

(** The literals of the source. *)
Definition lit_0 : float := S754_zero false.                   (* 0.0f   *)
Definition lit_1 : float := S754_finite false 8388608 (-23).   (* 1.0f   *)
Definition lit_256 : float := S754_finite false 8388608 (-15). (* 256.0f *)
Definition lit_0_001 : float := S754_finite false 8589935 (-33). (* 0.001f *)

End Float32.

Abbreviation float := Float32.float.

(** [uint32_t] and [int32_t] conversions wrap around. *)
Definition wrap_uint32 (z : Z) : Z := z mod 2 ^ 32.
Definition wrap_int32 (z : Z) : Z := (z + 2 ^ 31) mod 2 ^ 32 - 2 ^ 31.

Definition vec2 : Type := float * float.
Definition vec2_splat (x : float) : vec2 := (x, x).

(* ===================================================================== *)
(** ** Engine resources *)

(** Modelled from the spec: [ResourceFormat] (Formats.h) is an enumeration
    that is not part of this file; a format is its enumerator's number. *)
Definition ResourceFormat : Type := N.

Inductive BindFlag := ShaderResource | RenderTarget.

(** Modelled from the spec: [Texture] (API/Texture.h).  A texture object
    has an identity ([texId], one per allocation) and the description it
    was created with.  Its pixels are GPU memory, written by the commands
    of the render context, and are not part of the object. *)
Record Texture := mkTexture {
  texId : nat;
  getWidth : Z;
  getHeight : Z;
  getFormat : ResourceFormat;
  getArraySize : Z;
  getMipCount : Z;
  getBindFlags : list BindFlag
}.

Inductive ShaderResourceView := SRV (t : Texture).
Inductive RenderTargetView := RTV (t : Texture).
Definition getSRV (t : Texture) : ShaderResourceView := SRV t.
Definition getRTV (t : Texture) : RenderTargetView := RTV t.

(** Modelled from the spec: [Fbo] (API/FBO.h), "a bound set of
    render-target textures used as a draw destination". *)
Record Fbo := mkFbo { colorTargets : gmap nat Texture }.

Definition Fbo_create : Fbo := mkFbo ∅.
Definition getColorTexture (f : Fbo) (i : nat) : option Texture :=
  colorTargets f !! i.
Definition attachColorTarget (f : Fbo) (t : Texture) (i : nat) : Fbo :=
  mkFbo (<[i := t]> (colorTargets f)).

(** *** Blend state (API/BlendState.h) *)

Inductive BlendOp := Add | Subtract | ReverseSubtract | Min | Max.
Inductive BlendFunc :=
  | Zero | One | SrcColor | OneMinusSrcColor | DstColor | OneMinusDstColor
  | SrcAlpha | OneMinusSrcAlpha | DstAlpha | OneMinusDstAlpha.

Record RenderTargetDesc := mkRenderTargetDesc {
  blendEnabled : bool;
  rgbBlendOp : BlendOp;
  alphaBlendOp : BlendOp;
  srcRgbFunc : BlendFunc;
  dstRgbFunc : BlendFunc;
  srcAlphaFunc : BlendFunc;
  dstAlphaFunc : BlendFunc
}.

(** A blend description holds one [RenderTargetDesc] per render target. *)
Definition BlendState_Desc : Type := nat -> RenderTargetDesc.

Definition updateRt (d : BlendState_Desc) (rtIndex : nat)
    (f : RenderTargetDesc -> RenderTargetDesc) : BlendState_Desc :=
  fun i => if Nat.eqb i rtIndex then f (d i) else d i.

(** Modelled from the spec: the setters of [BlendState::Desc] write the
    fields of the render target they are given, in the order of the
    declaration
    [setRtParams(rtIndex, rgbOp, alphaOp, srcRgbFunc, dstRgbFunc,
    srcAlphaFunc, dstAlphaFunc)]. *)
Definition setRtBlend (d : BlendState_Desc) (rtIndex : nat) (enable : bool)
    : BlendState_Desc :=
  updateRt d rtIndex (fun rt =>
    mkRenderTargetDesc enable (rgbBlendOp rt) (alphaBlendOp rt)
      (srcRgbFunc rt) (dstRgbFunc rt) (srcAlphaFunc rt) (dstAlphaFunc rt)).

Definition setRtParams (d : BlendState_Desc) (rtIndex : nat)
    (rgbOp alphaOp : BlendOp)
    (srcRgb dstRgb srcAlpha dstAlpha : BlendFunc) : BlendState_Desc :=
  updateRt d rtIndex (fun rt =>
    mkRenderTargetDesc (blendEnabled rt) rgbOp alphaOp
      srcRgb dstRgb srcAlpha dstAlpha).

Record BlendState := mkBlendState { blendDesc : BlendState_Desc }.
Definition BlendState_create (d : BlendState_Desc) : BlendState :=
  mkBlendState d.
Definition getRtDesc (b : BlendState) (rtIndex : nat) : RenderTargetDesc :=
  blendDesc b rtIndex.

(** Modelled from the spec: an additive blend is a "GPU blend mode summing
    source and destination color channels".  [blendRgb] is what the blend
    unit writes for one colour channel, [src * srcFactor + dst * dstFactor]
    under [Add], for the constant factors; it is [None] for the operations
    and factors that the effect does not use. *)
Definition blendFactor (f : BlendFunc) : option Z :=
  match f with Zero => Some 0 | One => Some 1 | _ => None end.

Definition blendRgb (rt : RenderTargetDesc) (src dst : Z) : option Z :=
  if blendEnabled rt then
    match rgbBlendOp rt, blendFactor (srcRgbFunc rt), blendFactor (dstRgbFunc rt) with
    | Add, Some fs, Some fd => Some (src * fs + dst * fd)
    | _, _, _ => None
    end
  else Some src.

(** *** Sampler (API/Sampler.h) *)

Inductive Filter := Point | Linear.
Inductive AddressMode := Wrap | Mirror | Clamp | Border | MirrorOnce.

(** The fields of [Sampler::Desc] that the constructor sets. *)
Record Sampler_Desc := mkSamplerDesc {
  minFilter : Filter; magFilter : Filter; mipFilter : Filter;
  addressU : AddressMode; addressV : AddressMode; addressW : AddressMode
}.

Definition setFilterMode (d : Sampler_Desc) (mn mg mp : Filter)
    : Sampler_Desc :=
  mkSamplerDesc mn mg mp (addressU d) (addressV d) (addressW d).
Definition setAddressingMode (d : Sampler_Desc) (u v w : AddressMode)
    : Sampler_Desc :=
  mkSamplerDesc (minFilter d) (magFilter d) (mipFilter d) u v w.

Record Sampler := mkSampler { samplerDesc : Sampler_Desc }.
Definition Sampler_create (d : Sampler_Desc) : Sampler := mkSampler d.

(** *** Full-screen pass and its program variables *)

Record FullScreenPass := mkFullScreenPass {
  vertexShader : string;
  pixelShader : string
}.
Definition FullScreenPass_create (vs ps : string) : FullScreenPass :=
  mkFullScreenPass vs ps.

(** The reflection data of a pass's program. *)
Inductive ProgramReflection := ReflectorOf (p : FullScreenPass).
Definition getReflector (p : FullScreenPass) : ProgramReflection :=
  ReflectorOf p.

(** A binding location is a descriptor set index and a range index. *)
Definition BindLocation : Type := N * N.

Record GraphicsVars := mkGraphicsVars {
  varsReflector : ProgramReflection;
  constants : gmap (string * string) vec2;
  srvs : gmap (N * N * nat) ShaderResourceView;
  samplers : gmap string Sampler
}.

Definition GraphicsVars_create (r : ProgramReflection) : GraphicsVars :=
  mkGraphicsVars r ∅ ∅ ∅.
Definition setConstant (v : GraphicsVars) (cb var : string) (x : vec2)
    : GraphicsVars :=
  mkGraphicsVars (varsReflector v) (<[(cb, var) := x]> (constants v))
    (srvs v) (samplers v).
Definition setSampler (v : GraphicsVars) (name : string) (s : Sampler)
    : GraphicsVars :=
  mkGraphicsVars (varsReflector v) (constants v) (srvs v)
    (<[name := s]> (samplers v)).
Definition setSrv (v : GraphicsVars) (loc : BindLocation) (i : nat)
    (s : ShaderResourceView) : GraphicsVars :=
  mkGraphicsVars (varsReflector v) (constants v)
    (<[(loc, i) := s]> (srvs v)) (samplers v).
Definition getSrv (v : GraphicsVars) (loc : BindLocation) (i : nat)
    : option ShaderResourceView :=
  srvs v !! (loc, i).

(** *** The filter and the blur (Effects/Utils/PassFilter.h,
    Effects/Utils/GaussianBlur.h) *)

Inductive PassFilter_Type := HighPass | LowPass.

(** Modelled from the spec: a pass filter is a "thresholding operation
    retaining only pixels above a brightness cutoff"; the object is the
    kind of filter and the cutoff it was created with. *)
Record PassFilter := mkPassFilter {
  filterType : PassFilter_Type;
  getThreshold : float
}.
Definition PassFilter_create (ty : PassFilter_Type) (threshold : float)
    : PassFilter := mkPassFilter ty threshold.

(** Modelled from the spec: a Gaussian blur is a "separable convolution
    blur parameterized by kernel width and sigma". *)
Record GaussianBlur := mkGaussianBlur {
  getKernelWidth : Z;
  getSigma : float
}.
Definition GaussianBlur_create (kernelSize : Z) (sigma : float)
    : GaussianBlur := mkGaussianBlur kernelSize sigma.

(** *** What the engine does behind its interfaces

    The parts of the engine that Bloom.cpp calls and whose results it
    cannot see: the default descriptions, shader reflection, the texture a
    pass filter renders into, and what the setters of the filter and the
    blur store. *)
Class Engine := {
  BlendState_Desc_default : BlendState_Desc;
  Sampler_Desc_default : Sampler_Desc;
  getResourceBinding : ProgramReflection -> string -> BindLocation;
  PassFilter_result : PassFilter -> Texture -> Texture;
  setThreshold : PassFilter -> float -> PassFilter;
  setKernelWidth : GaussianBlur -> Z -> GaussianBlur;
  setSigma : GaussianBlur -> float -> GaussianBlur
}.

(* ===================================================================== *)
(** ** The render context *)

(** A depth-stencil state (API/DepthStencilState.h); the effect only ever
    passes a null one. *)
Inductive DepthStencilState := mkDepthStencilState.

(** The GPU work a call submits. *)
Inductive Command :=
  | CmdBlit (src : ShaderResourceView) (dst : RenderTargetView)
  | CmdPassFilter (filter : PassFilter) (src : Texture) (result : Texture)
  | CmdGaussianBlur (blur : GaussianBlur) (src : Texture) (dst : Fbo)
  | CmdFullScreenPass (pass : FullScreenPass) (target : option Fbo)
      (vars : option GraphicsVars) (depthStencil : option DepthStencilState)
      (blend : BlendState).

(** Modelled from the spec: [RenderContext] and its [GraphicsState]
    (API/RenderContext.h, Graphics/GraphicsState.h).  The graphics state
    keeps a stack of frame buffers and the context a stack of program
    variables; the top of a stack is what is bound.  [commands] is what
    has been submitted, oldest first. *)
Record RenderContext := mkRenderContext {
  fboStack : list Fbo;
  graphicsVarsStack : list GraphicsVars;
  commands : list Command
}.

(** ** The effect object and the state a call runs in *)

Record Bloom := mkBloom {
  mpBlur : GaussianBlur;
  mpBlitPass : FullScreenPass;
  mSrcTexLoc : BindLocation;
  mpVars : GraphicsVars;
  mpAdditiveBlend : BlendState;
  mpSampler : Sampler;
  mpFilter : PassFilter;
  mpFilterResultFbo : Fbo;
  mpLowResTexture : option Texture
}.

(** [this], the render context the call was given, and the textures the
    device has created, most recent first. *)
Record Env := mkEnv {
  this : Bloom;
  context : RenderContext;
  textures : list Texture
}.

(** A call either runs to its end or has undefined behaviour ([None]). *)
Definition M (A : Type) : Type := Env -> option (A * Env).

Definition ret {A} (a : A) : M A := fun s => Some (a, s).
Definition bind {A B} (m : M A) (k : A -> M B) : M B :=
  fun s => match m s with Some (a, s') => k a s' | None => None end.
Definition gets {A} (f : Env -> A) : M A := fun s => Some (f s, s).
Definition modify (f : Env -> Env) : M unit := fun s => Some (tt, f s).
Definition undefined {A} : M A := fun _ => None.

(** Dereferencing a pointer that may be null, and using a conversion that
    may be undefined. *)
Definition deref {A} (p : option A) : M A :=
  match p with Some a => ret a | None => undefined end.

Notation "x <- m ;; k" := (bind m (fun x => k))
  (at level 100, m at next level, right associativity).
Notation "m ;; k" := (bind m (fun _ => k))
  (at level 100, right associativity).

Definition withThis (f : Bloom -> Bloom) (s : Env) : Env :=
  mkEnv (f (this s)) (context s) (textures s).
Definition withContext (f : RenderContext -> RenderContext) (s : Env) : Env :=
  mkEnv (this s) (f (context s)) (textures s).

Definition set_mpLowResTexture (t : option Texture) (b : Bloom) : Bloom :=
  mkBloom (mpBlur b) (mpBlitPass b) (mSrcTexLoc b) (mpVars b)
    (mpAdditiveBlend b) (mpSampler b) (mpFilter b) (mpFilterResultFbo b) t.
Definition set_mpFilterResultFbo (f : Fbo) (b : Bloom) : Bloom :=
  mkBloom (mpBlur b) (mpBlitPass b) (mSrcTexLoc b) (mpVars b)
    (mpAdditiveBlend b) (mpSampler b) (mpFilter b) f (mpLowResTexture b).
Definition set_mpVars (v : GraphicsVars) (b : Bloom) : Bloom :=
  mkBloom (mpBlur b) (mpBlitPass b) (mSrcTexLoc b) v
    (mpAdditiveBlend b) (mpSampler b) (mpFilter b) (mpFilterResultFbo b)
    (mpLowResTexture b).
Definition set_mpFilter (f : PassFilter) (b : Bloom) : Bloom :=
  mkBloom (mpBlur b) (mpBlitPass b) (mSrcTexLoc b) (mpVars b)
    (mpAdditiveBlend b) (mpSampler b) f (mpFilterResultFbo b)
    (mpLowResTexture b).
Definition set_mpBlur (g : GaussianBlur) (b : Bloom) : Bloom :=
  mkBloom g (mpBlitPass b) (mSrcTexLoc b) (mpVars b)
    (mpAdditiveBlend b) (mpSampler b) (mpFilter b) (mpFilterResultFbo b)
    (mpLowResTexture b).

(** *** Engine calls *)

(** [Texture::create2D]: a new texture object of the given description. *)
Definition Texture_create2D (width height : Z) (format : ResourceFormat)
    (arraySize mipLevels : Z) (bindFlags : list BindFlag) : M Texture :=
  fun s =>
    let t := mkTexture (length (textures s)) width height format
               arraySize mipLevels bindFlags in
    Some (t, mkEnv (this s) (context s) (t :: textures s)).

Definition submit (c : Command) : M unit :=
  modify (withContext (fun r =>
    mkRenderContext (fboStack r) (graphicsVarsStack r) (commands r ++ [c]))).

(** [RenderContext::blit] with its default rectangles and filter. *)
Definition blit (src : ShaderResourceView) (dst : RenderTargetView) : M unit :=
  submit (CmdBlit src dst).

(** [GraphicsState::pushFbo] and [popFbo]. *)
Definition pushFbo (f : Fbo) : M unit :=
  modify (withContext (fun r =>
    mkRenderContext (f :: fboStack r) (graphicsVarsStack r) (commands r))).
Definition popFbo : M unit :=
  modify (withContext (fun r =>
    mkRenderContext (tail (fboStack r)) (graphicsVarsStack r) (commands r))).

(** [RenderContext::pushGraphicsVars] and [popGraphicsVars]. *)
Definition pushGraphicsVars (v : GraphicsVars) : M unit :=
  modify (withContext (fun r =>
    mkRenderContext (fboStack r) (v :: graphicsVarsStack r) (commands r))).
Definition popGraphicsVars : M unit :=
  modify (withContext (fun r =>
    mkRenderContext (fboStack r) (tail (graphicsVarsStack r)) (commands r))).

(** [PassFilter::execute(pRenderContext, pSrc)]: runs the filter over
    [pSrc] and returns the texture with the result. *)
Definition PassFilter_execute `{Engine} (f : PassFilter) (src : Texture)
    : M Texture :=
  let result := PassFilter_result f src in
  submit (CmdPassFilter f src result) ;; ret result.

(** [GaussianBlur::execute(pRenderContext, pSrc, pDst)]. *)
Definition GaussianBlur_execute (b : GaussianBlur) (src : Texture) (dst : Fbo)
    : M unit :=
  submit (CmdGaussianBlur b src dst).

(** [FullScreenPass::execute(pRenderContext, pDsState, pBlendState)] draws
    a full-screen quad with the pass's program into the frame buffer that
    is bound, with the program variables that are bound. *)
Definition FullScreenPass_execute (p : FullScreenPass)
    (pDsState : option DepthStencilState) (pBlendState : BlendState)
    : M unit :=
  r <- gets context ;;
  submit (CmdFullScreenPass p (head (fboStack r)) (head (graphicsVarsStack r))
            pDsState pBlendState).

(* ===================================================================== *)
(** ** Bloom *)

Import Float32.

(** [Bloom::Bloom(threshold, kernelSize, sigma)].  [mpLowResTexture] is a
    shared pointer the constructor does not set: it starts null. *)
Definition Bloom_new `{Engine} (threshold : float) (kernelSize : Z)
    (sigma : float) : Bloom :=
  let mpBlur := GaussianBlur_create kernelSize sigma in
  let mpBlitPass :=
    FullScreenPass_create "Framework/Shaders/Blit.vs.slang"
                          "Framework/Shaders/Blit.ps.slang" in
  let mSrcTexLoc := getResourceBinding (getReflector mpBlitPass) "gTex" in
  let mpVars := GraphicsVars_create (getReflector mpBlitPass) in
  let mpVars := setConstant mpVars "SrcRectCB" "gOffset" (vec2_splat lit_0) in
  let mpVars := setConstant mpVars "SrcRectCB" "gScale" (vec2_splat lit_1) in

  let desc := BlendState_Desc_default in
  let desc := setRtBlend desc 0 true in
  let desc := setRtParams desc 0
                Add Add
                One One
                SrcAlpha OneMinusSrcAlpha in

  let mpAdditiveBlend := BlendState_create desc in

  let samplerDesc := Sampler_Desc_default in
  let samplerDesc :=
    setAddressingMode (setFilterMode samplerDesc Linear Linear Linear)
                      Clamp Clamp Clamp in
  let mpSampler := Sampler_create samplerDesc in
  let mpVars := setSampler mpVars "gSampler" mpSampler in

  let mpFilter := PassFilter_create HighPass threshold in
  let mpFilterResultFbo := Fbo_create in
  mkBloom mpBlur mpBlitPass mSrcTexLoc mpVars mpAdditiveBlend mpSampler
    mpFilter mpFilterResultFbo None.

(** [Bloom::create(threshold, kernelSize, sigma)]. *)
Definition Bloom_create `{Engine} (threshold : float) (kernelSize : Z)
    (sigma : float) : Bloom :=
  Bloom_new threshold kernelSize sigma.

(** The locals of [Bloom::updateLowResTexture]. *)
Definition aspectRatio (pTexture : Texture) : float :=
  div (of_int (getWidth pTexture)) (of_int (getHeight pTexture)).

Definition lowResHeight (pTexture : Texture) : Z :=
  Z.max (getHeight pTexture / 4) 256.

Definition lowResWidth (pTexture : Texture) : option Z :=
  w ← to_uint32 (mul lit_256 (aspectRatio pTexture));
  Some (Z.max (getWidth pTexture / 4) w).

(** [Bloom::updateLowResTexture(pTexture)]. *)
Definition updateLowResTexture (pTexture : Texture) : M unit :=
  (* Create FBO if not created already, or properties have changed since
     last use *)
  low <- gets (fun s => mpLowResTexture (this s)) ;;
  let createFbo := match low with None => true | Some _ => false end in

  let lowResHeight := lowResHeight pTexture in
  lowResWidth <- deref (lowResWidth pTexture) ;;

  createFbo <-
    (if negb createFbo then
       mpLowResTexture <- deref low ;;
       ret (negb (lowResWidth =? getWidth mpLowResTexture)
            || negb (lowResHeight =? getHeight mpLowResTexture)
            || negb (getFormat pTexture =? getFormat mpLowResTexture)%N)
     else ret createFbo) ;;

  if createFbo then
    t <- Texture_create2D
           lowResWidth
           lowResHeight
           (getFormat pTexture)
           1
           1
           [ShaderResource; RenderTarget] ;;
    modify (withThis (set_mpLowResTexture (Some t)))
  else ret tt.

(** [Bloom::execute(pRenderContext, pFbo)]. *)
Definition execute `{Engine} (pFbo : Fbo) : M unit :=
  tex0 <- deref (getColorTexture pFbo 0) ;;
  updateLowResTexture tex0 ;;

  low <- gets (fun s => mpLowResTexture (this s)) ;;
  mpLowResTexture <- deref low ;;
  blit (getSRV tex0) (getRTV mpLowResTexture) ;;

  (* Run high-pass filter and attach it to an FBO for blurring *)
  mpFilter <- gets (fun s => mpFilter (this s)) ;;
  pHighPassResult <- PassFilter_execute mpFilter mpLowResTexture ;;
  modify (withThis (fun b =>
    set_mpFilterResultFbo
      (attachColorTarget (mpFilterResultFbo b) pHighPassResult 0) b)) ;;
  b <- gets this ;;
  GaussianBlur_execute (mpBlur b) pHighPassResult (mpFilterResultFbo b) ;;

  (* Execute bloom *)
  modify (withThis (fun b =>
    set_mpVars (setSrv (mpVars b) (mSrcTexLoc b) 0 (getSRV pHighPassResult))
      b)) ;;
  b <- gets this ;;
  pushFbo pFbo ;;
  pushGraphicsVars (mpVars b) ;;

  FullScreenPass_execute (mpBlitPass b) None (mpAdditiveBlend b) ;;

  popGraphicsVars ;;
  popFbo.

(** *** [Bloom::renderUI] *)

(** The GUI (Utils/Gui.h) is an interface of the engine.  A control is given
    the variable's value and reports whether the user changed it, with the
    value the variable has afterwards. *)
Class GuiOps (G : Type) := {
  beginGroup : G -> string -> bool * G;
  endGroup : G -> G;
  (* addFloatVar(label, var, minVal) *)
  addFloatVar : G -> string -> float -> float -> bool * float * G;
  (* addIntVar(label, var, minVal, maxVal, step) *)
  addIntVar : G -> string -> Z -> Z -> Z -> Z -> bool * Z * G
}.

(** What a call of [renderUI] does to the GUI and to the effect's
    parameters, in order. *)
Inductive UiEvent :=
  | EvFloatVar (label : string) (var minVal : float)
      (changed : bool) (result : float)
  | EvIntVar (label : string) (var minVal maxVal step : Z)
      (changed : bool) (result : Z)
  | EvSetThreshold (threshold : float)
  | EvSetKernelWidth (kernelWidth : Z)
  | EvSetSigma (sigma : float).

Record UiResult (G : Type) := mkUiResult {
  ui_this : Bloom;
  ui_gui : G;
  ui_events : list UiEvent
}.
Arguments mkUiResult {G}.
Arguments ui_this {G}.
Arguments ui_gui {G}.
Arguments ui_events {G}.

Definition renderUI `{Engine} `{GuiOps G} (pGui : G) (uiGroup : option string)
    (b : Bloom) : UiResult G :=
  let '(opened, g) :=
    match uiGroup with
    | None => (true, pGui)
    | Some name => beginGroup pGui name
    end in
  if opened then
    let threshold := getThreshold (mpFilter b) in
    let '(changed, threshold', g) := addFloatVar g "Threshold" threshold lit_0 in
    let ev1 := [EvFloatVar "Threshold" threshold lit_0 changed threshold'] in
    let '(b, ev1) :=
      if changed
      then (set_mpFilter (setThreshold (mpFilter b) threshold') b,
            ev1 ++ [EvSetThreshold threshold'])
      else (b, ev1) in

    let kernelWidth := wrap_int32 (getKernelWidth (mpBlur b)) in
    let '(changed, kernelWidth', g) :=
      addIntVar g "Kernel Width" kernelWidth 1 15 2 in
    let ev2 := [EvIntVar "Kernel Width" kernelWidth 1 15 2 changed kernelWidth'] in
    let '(b, ev2) :=
      if changed
      then (set_mpBlur (setKernelWidth (mpBlur b) (wrap_uint32 kernelWidth')) b,
            ev2 ++ [EvSetKernelWidth (wrap_uint32 kernelWidth')])
      else (b, ev2) in

    let sigma := getSigma (mpBlur b) in
    let '(changed, sigma', g) := addFloatVar g "Sigma" sigma lit_0_001 in
    let ev3 := [EvFloatVar "Sigma" sigma lit_0_001 changed sigma'] in
    let '(b, ev3) :=
      if changed
      then (set_mpBlur (setSigma (mpBlur b) sigma') b,
            ev3 ++ [EvSetSigma sigma'])
      else (b, ev3) in

    let g := match uiGroup with Some _ => endGroup g | None => g end in
    mkUiResult b g (ev1 ++ ev2 ++ ev3)
  else mkUiResult b g [].

(* ===================================================================== *)
(** ** A sample engine and a scripted GUI, to run the model on *)

Module Sample.

Definition RGBA8Unorm : ResourceFormat := 28%N.
Definition RGBA16Float : ResourceFormat := 10%N.

Definition engine : Engine := {|
  BlendState_Desc_default :=
    fun _ => mkRenderTargetDesc false Add Add One Zero One Zero;
  Sampler_Desc_default := mkSamplerDesc Point Point Point Wrap Wrap Wrap;
  getResourceBinding := fun _ _ => (0%N, 0%N);
  PassFilter_result := fun _ src =>
    mkTexture 1000 (getWidth src) (getHeight src) (getFormat src) 1 1
      [ShaderResource; RenderTarget];
  setThreshold := fun f v => mkPassFilter (filterType f) v;
  setKernelWidth := fun b k => mkGaussianBlur k (getSigma b);
  setSigma := fun b v => mkGaussianBlur (getKernelWidth b) v
|}.

(** What the user does to the next control that is drawn. *)
Inductive Answer := Untouched | TypeFloat (v : float) | TypeInt (v : Z).

Definition gui : GuiOps (list Answer) := {|
  beginGroup := fun g _ => (true, g);
  endGroup := fun g => g;
  addFloatVar := fun g _ var _ =>
    match g with
    | TypeFloat v :: g' => (true, v, g')
    | _ :: g' => (false, var, g')
    | [] => (false, var, [])
    end;
  addIntVar := fun g _ var minVal maxVal _ =>
    match g with
    | TypeInt v :: g' => (true, Z.max minVal (Z.min v maxVal), g')
    | _ :: g' => (false, var, g')
    | [] => (false, var, [])
    end
|}.

Definition texture (id : nat) (w h : Z) (fmt : ResourceFormat) : Texture :=
  mkTexture id w h fmt 1 1 [ShaderResource; RenderTarget].

(** A 1920x1080 back buffer and a 100x100 one. *)
Definition fullHD : Texture := texture 0 1920 1080 RGBA8Unorm.
Definition small : Texture := texture 0 100 100 RGBA8Unorm.

Definition bloom : Bloom :=
  @Bloom_create engine lit_1 5 (S754_finite false 8388608 (-22)).

(** The frame buffer to draw to, with [fullHD] as its colour target 0. *)
Definition backBuffer : Fbo := attachColorTarget Fbo_create fullHD 0.

Definition env (b : Bloom) : Env :=
  mkEnv b (mkRenderContext [] [] []) [fullHD].

(** The state after a first [updateLowResTexture] with [fullHD]. *)
Definition afterFirstCall : Env :=
  mkEnv (set_mpLowResTexture (Some (texture 1 480 270 RGBA8Unorm)) bloom)
    (mkRenderContext [] [] [])
    [texture 1 480 270 RGBA8Unorm; fullHD].

(** An effect whose low-resolution texture has the size that [fullHD]
    asks for and another format. *)
Definition bloomOtherFormat : Bloom :=
  set_mpLowResTexture (Some (texture 1 480 270 RGBA16Float)) bloom.

(** A 4K frame, a 720p one, one without rows and a narrow tall one. *)
Definition uhd : Texture := texture 0 3840 2160 RGBA8Unorm.
Definition hd720 : Texture := texture 0 1280 720 RGBA8Unorm.
Definition noRows : Texture := texture 0 5 0 RGBA8Unorm.
Definition sliver : Texture := texture 0 1 1000 RGBA8Unorm.

(** The other frame buffer of a pair, of the size of [backBuffer]. *)
Definition otherBuffer : Fbo :=
  attachColorTarget Fbo_create (texture 7 1920 1080 RGBA8Unorm) 0.

End Sample.

(* ===================================================================== *)
(** ** Vocabulary of the properties *)

(** The test of [updateLowResTexture]: no texture yet, or one of another
    width, height or format. *)
Definition needsCreate (low : option Texture) (w h : Z) (fmt : ResourceFormat)
    : bool :=
  match low with
  | None => true
  | Some t =>
      negb (w =? getWidth t) || negb (h =? getHeight t)
      || negb (fmt =? getFormat t)%N
  end.

Definition lowResTexture (s : Env) (w h : Z) (fmt : ResourceFormat) : Texture :=
  mkTexture (length (textures s)) w h fmt 1 1 [ShaderResource; RenderTarget].

(** The call created a texture and made it the low-resolution texture. *)
Definition reallocated (s s' : Env) : Prop :=
  exists t, textures s' = t :: textures s
            /\ mpLowResTexture (this s') = Some t.

(** The state [execute] ends in, given the state [updateLowResTexture]
    left and the low-resolution texture. *)
Definition afterExecute `{Engine} (pFbo : Fbo) (tex0 low : Texture) (s1 : Env) : Env :=
  let b := this s1 in
  let result := PassFilter_result (mpFilter b) low in
  let fbo := attachColorTarget (mpFilterResultFbo b) result 0 in
  let vars := setSrv (mpVars b) (mSrcTexLoc b) 0 (getSRV result) in
  mkEnv (set_mpVars vars (set_mpFilterResultFbo fbo b))
    (mkRenderContext (fboStack (context s1))
       (graphicsVarsStack (context s1))
       ((((commands (context s1)
           ++ [CmdBlit (getSRV tex0) (getRTV low)])
           ++ [CmdPassFilter (mpFilter b) low result])
           ++ [CmdGaussianBlur (mpBlur b) result fbo])
           ++ [CmdFullScreenPass (mpBlitPass b) (Some pFbo) (Some vars)
                 None (mpAdditiveBlend b)]))
    (textures s1).

(** A mantissa of a normal binary32 number: 24 significant bits. *)
Definition normal (m : positive) : Prop := 2 ^ 23 <= Zpos m < 2 ^ 24.

(** The location after one more bit has been shifted out of [q]. *)
Definition shifted_loc (q : Z) (l : location) : location :=
  loc_of_shr_record (shr_1 (shr_record_of_loc q l)).

(** The effect states that calls of the public methods lead to. *)
Inductive reachable `{Engine} : Bloom -> Prop :=
  | reach_create threshold kernelSize sigma :
      reachable (Bloom_create threshold kernelSize sigma)
  | reach_execute b ctx texs pFbo s' :
      reachable b ->
      execute pFbo (mkEnv b ctx texs) = Some (tt, s') ->
      reachable (this s')
  | reach_renderUI (G : Type) (ops : GuiOps G) (pGui : G) uiGroup b :
      reachable b ->
      reachable (ui_this (renderUI pGui uiGroup b)).

(** What a setter call of the log of [renderUI] does to the effect. *)
Definition applyEvent `{Engine} (b : Bloom) (e : UiEvent) : Bloom :=
  match e with
  | EvSetThreshold threshold =>
      set_mpFilter (setThreshold (mpFilter b) threshold) b
  | EvSetKernelWidth kernelWidth =>
      set_mpBlur (setKernelWidth (mpBlur b) kernelWidth) b
  | EvSetSigma sigma => set_mpBlur (setSigma (mpBlur b) sigma) b
  | EvFloatVar _ _ _ _ _ | EvIntVar _ _ _ _ _ _ _ => b
  end.

(** The label of a control of the log. *)
Definition controlLabel (e : UiEvent) : option string :=
  match e with
  | EvFloatVar label _ _ _ _ | EvIntVar label _ _ _ _ _ _ => Some label
  | _ => None
  end.

(** Whether [renderUI] gets to draw its controls: it was given no group, or
    [beginGroup] returned true. *)
Definition groupOpen `{GuiOps G} (pGui : G) (uiGroup : option string) : bool :=
  match uiGroup with
  | None => true
  | Some name => fst (beginGroup pGui name)
  end.

(* ===================================================================== *)
(** * Properties *)

(** ** Binary32 arithmetic

    What [updateLowResTexture] computes in [float], for widths and heights
    below [2^24] (which convert to [float] without rounding): the quotient
    is rounded to nearest, the product with [256.0f] is exact, and the
    conversion to [uint32_t] truncates. *)

(** The literals are the binary32 numbers they denote. *)
Example lit_1_is_1 : of_int 1 = lit_1.
Proof. reflexivity. Qed.

Example lit_256_is_256 : of_int 256 = lit_256.
Proof. reflexivity. Qed.

Example lit_0_001_is_nearest : div (of_int 1) (of_int 1000) = lit_0_001.
Proof. reflexivity. Qed.

(** A 1920x1080 frame is downsampled to 480x270, a 1280x720 one to
    455x256, and a 100x100 one is not downsampled at all. *)
Example lowRes_fullHD :
  lowResWidth Sample.fullHD = Some 480 /\ lowResHeight Sample.fullHD = 270.
Proof. split; reflexivity. Qed.

Example lowRes_720p :
  let t := Sample.texture 0 1280 720 Sample.RGBA8Unorm in
  lowResWidth t = Some 455 /\ lowResHeight t = 256.
Proof. split; reflexivity. Qed.

Example lowRes_small :
  lowResWidth Sample.small = Some 256 /\ lowResHeight Sample.small = 256.
Proof. split; reflexivity. Qed.

(** The conversion to [uint32_t] is undefined for a texture without rows
    (the quotient is infinite) and for one as wide as [uint32_t] allows. *)
Example lowRes_undefined :
  lowResWidth (Sample.texture 0 5 0 Sample.RGBA8Unorm) = None
  /\ lowResWidth (Sample.texture 0 (2 ^ 32 - 1) 256 Sample.RGBA8Unorm) = None.
Proof. split; reflexivity. Qed.

Lemma digits2_size p : digits2_pos p = Pos.size p.
Proof. induction p; cbn; congruence. Qed.

Lemma digits2_bounds p :
  2 ^ (Zpos (digits2_pos p) - 1) <= Zpos p < 2 ^ Zpos (digits2_pos p).
Proof.
  rewrite digits2_size. split.
  - pose proof (Pos.size_le p) as H.
    apply Pos2Z.pos_le_pos in H. rewrite Pos2Z.inj_pow in H.
    replace (Zpos (Pos.size p)) with (Zpos (Pos.size p) - 1 + 1) in H by lia.
    rewrite Z.pow_add_r in H by lia. lia.
  - pose proof (Pos.size_gt p) as H.
    apply Pos2Z.pos_lt_pos in H. rewrite Pos2Z.inj_pow in H. exact H.
Qed.

Lemma digits2_unique p d :
  2 ^ (d - 1) <= Zpos p < 2 ^ d -> Zpos (digits2_pos p) = d.
Proof.
  intros [Hlo Hhi]. pose proof (digits2_bounds p) as [Blo Bhi].
  assert (0 < d).
  { destruct (Z.lt_ge_cases 0 d) as [?|Hd]; [assumption|].
    rewrite (Z.pow_neg_r 2 (d-1)) in Hlo by lia.
    destruct (Z.eq_dec d 0) as [->|]; [cbn in Hhi; lia|].
    rewrite Z.pow_neg_r in Hhi by lia. lia. }
  assert (Zpos (digits2_pos p) - 1 < d).
  { apply (Z.pow_lt_mono_r_iff 2); lia. }
  assert (d - 1 < Zpos (digits2_pos p)).
  { apply (Z.pow_lt_mono_r_iff 2); lia. }
  lia.
Qed.

Lemma loc_roundtrip m l : loc_of_shr_record (shr_record_of_loc m l) = l.
Proof. destruct l as [|[]]; reflexivity. Qed.

Lemma shr_m_record m l : shr_m (shr_record_of_loc m l) = m.
Proof. destruct l as [|[]]; reflexivity. Qed.

Lemma rne_range q l : round_nearest_even q l = q \/ round_nearest_even q l = q + 1.
Proof. destruct l as [|[]]; cbn; auto. destruct (Z.even q); auto. Qed.

Lemma Zdigits2_normal q : 2 ^ 23 <= q < 2 ^ 24 -> Zdigits2 q = 24.
Proof.
  intros H. destruct q as [|p|p]; try (cbn in H; lia).
  cbn [Zdigits2]. apply digits2_unique. exact H.
Qed.

Lemma round_aux_normal q e l :
  2 ^ 23 <= q < 2 ^ 24 -> -149 <= e <= 103 ->
  binary_round_aux 24 128 false q e l =
    if round_nearest_even q l <? 2 ^ 24
    then S754_finite false (Z.to_pos (round_nearest_even q l)) e
    else S754_finite false 8388608 (e + 1).
Proof.
  intros Hq He. unfold binary_round_aux, shr_fexp.
  rewrite (Zdigits2_normal q Hq).
  unfold fexp, emin.
  replace (Z.max (24 + e - 24) (3 - 128 - 24) - e) with 0 by lia.
  cbn [shr]. rewrite loc_roundtrip, shr_m_record.
  destruct (rne_range q l) as [-> | ->].
  - rewrite (Zdigits2_normal q Hq).
    replace (Z.max (24 + e - 24) (3 - 128 - 24) - e) with 0 by lia.
    cbn [shr shr_record_of_loc shr_m].
    destruct (Z.ltb_spec q (2^24)); [|lia].
    destruct q; try (cbn in Hq; lia).
    destruct (Z.leb_spec e (128 - 24)); [|lia]. reflexivity.
  - destruct (Z.ltb_spec (q + 1) (2^24)) as [Hlt|Hge].
    + rewrite (Zdigits2_normal (q+1)) by lia.
      replace (Z.max (24 + e - 24) (3 - 128 - 24) - e) with 0 by lia.
      cbn [shr shr_record_of_loc shr_m].
      destruct (q + 1) eqn:Hq1; try lia.
      destruct (Z.leb_spec e (128 - 24)); [|lia]. reflexivity.
    + assert (q + 1 = 2 ^ 24) as -> by lia.
      change (Zdigits2 (2 ^ 24)) with 25.
      replace (Z.max (25 + e - 24) (3 - 128 - 24) - e) with 1 by lia.
      cbn [shr SpecFloat.iter_pos shr_record_of_loc shr_1 shr_m Z.pow Z.pow_pos Pos.iter Z.mul Pos.mul].
      destruct (Z.leb_spec (e + 1) (128 - 24)); [|lia]. reflexivity.
Qed.

Lemma round_aux_normal_ex q e l :
  2 ^ 23 <= q < 2 ^ 24 -> -149 <= e <= 103 ->
  exists m k,
    binary_round_aux 24 128 false q e l = S754_finite false m (e + k)
    /\ 0 <= k <= 1 /\ normal m
    /\ Zpos m * 2 ^ k = round_nearest_even q l.
Proof.
  intros Hq He. rewrite (round_aux_normal q e l Hq He).
  pose proof (rne_range q l) as Hr.
  destruct (Z.ltb_spec (round_nearest_even q l) (2 ^ 24)) as [Hlt|Hge].
  - exists (Z.to_pos (round_nearest_even q l)), 0.
    rewrite Z.add_0_r. split; [reflexivity|]. split; [lia|].
    unfold normal. rewrite Z2Pos.id by lia. split; lia.
  - exists 8388608%positive, 1. split; [reflexivity|]. split; [lia|].
    split; [unfold normal; lia|]. lia.
Qed.

Lemma div2_xI p : Zpos p~1 / 2 = Zpos p.
Proof. symmetry. apply Z.div_unique with (r := 1); lia. Qed.

Lemma div2_xO p : Zpos p~0 / 2 = Zpos p.
Proof. symmetry. apply Z.div_unique with (r := 0); lia. Qed.

Lemma shr_1_m q l : 0 < q -> shr_m (shr_1 (shr_record_of_loc q l)) = q / 2.
Proof.
  intros Hq. destruct q as [|p|p]; try lia.
  destruct l as [|[]]; destruct p; cbn [shr_record_of_loc shr_1 shr_m orb];
    first [rewrite div2_xI | rewrite div2_xO | idtac]; reflexivity.
Qed.

Lemma shifted_loc_spec q l : 0 < q ->
  shifted_loc q l =
    match Z.odd q, l with
    | false, loc_Exact => loc_Exact
    | false, _ => loc_Inexact Lt
    | true, loc_Exact => loc_Inexact Eq
    | true, _ => loc_Inexact Gt
    end.
Proof.
  intros Hq. unfold shifted_loc. destruct q as [|p|p]; try lia.
  destruct l as [|[]]; destruct p; reflexivity.
Qed.

Lemma round_aux_wide_ex q e l :
  2 ^ 24 <= q < 2 ^ 25 -> -149 <= e <= 102 ->
  exists m k,
    binary_round_aux 24 128 false q e l = S754_finite false m (e + k)
    /\ 1 <= k <= 2 /\ normal m
    /\ Zpos m * 2 ^ k = 2 * round_nearest_even (q / 2) (shifted_loc q l).
Proof.
  intros Hq He.
  assert (Hd : Zdigits2 q = 25).
  { destruct q as [|p|p]; try (cbn in Hq; lia).
    cbn [Zdigits2]. apply digits2_unique. exact Hq. }
  assert (Hq2 : 2 ^ 23 <= q / 2 < 2 ^ 24).
  { split; [apply Z.div_le_lower_bound; lia | apply Z.div_lt_upper_bound; lia]. }
  destruct (round_aux_normal_ex (q / 2) (e + 1) (shifted_loc q l) Hq2
              ltac:(lia)) as (m & k & Hrun & Hk & Hm & Hval).
  exists m, (k + 1). split; [|split; [lia|split; [exact Hm|]]].
  - replace (e + (k + 1)) with (e + 1 + k) by lia. rewrite <- Hrun. clear Hrun.
    unfold binary_round_aux at 1. unfold shr_fexp at 1. rewrite Hd.
    unfold fexp at 1, emin.
    replace (Z.max (25 + e - 24) (3 - 128 - 24) - e) with 1 by lia.
    cbn [shr SpecFloat.iter_pos].
    fold (shifted_loc q l). rewrite shr_1_m by lia.
    assert (Hs : shr_fexp 24 128 (q / 2) (e + 1) (shifted_loc q l)
                 = (shr_record_of_loc (q / 2) (shifted_loc q l), e + 1)).
    { unfold shr_fexp. rewrite (Zdigits2_normal (q / 2) Hq2).
      unfold fexp, emin.
      replace (Z.max (24 + (e + 1) - 24) (3 - 128 - 24) - (e + 1)) with 0 by lia.
      reflexivity. }
    unfold binary_round_aux. rewrite Hs, loc_roundtrip, shr_m_record.
    reflexivity.
  - rewrite Z.pow_add_r by lia. lia.
Qed.

Lemma new_location_spec nb k :
  0 < nb -> 0 <= k < nb ->
  new_location nb k =
    if k =? 0 then loc_Exact else loc_Inexact (2 * k ?= nb).
Proof.
  intros Hnb Hk. unfold new_location, new_location_even, new_location_odd.
  destruct (Z.even nb) eqn:Hev; [reflexivity|].
  destruct (k =? 0); [reflexivity|]. f_equal.
  rewrite <- Z.negb_odd in Hev. apply negb_false_iff in Hev.
  apply Z.odd_spec in Hev. destruct Hev as [c Hc].
  destruct (Z.compare_spec (2 * k + 1) nb);
    destruct (Z.compare_spec (2 * k) nb); try reflexivity; lia.
Qed.

Lemma div_core_normal mw ew mh eh :
  normal mw -> normal mh -> -125 <= ew - eh ->
  SFdiv_core_binary 24 128 (Zpos mw) ew (Zpos mh) eh =
    (Zpos mw * 2 ^ 24 / Zpos mh, ew - eh - 24,
     new_location (Zpos mh) ((Zpos mw * 2 ^ 24) mod Zpos mh)).
Proof.
  intros Hw Hh He. unfold SFdiv_core_binary.
  rewrite (Zdigits2_normal (Zpos mw) Hw), (Zdigits2_normal (Zpos mh) Hh).
  unfold fexp, emin.
  replace (Z.min (Z.max (24 + ew - (24 + eh) - 24) (3 - 128 - 24)) (ew - eh))
    with (ew - eh - 24) by lia.
  replace (ew - eh - (ew - eh - 24)) with 24 by lia.
  cbv iota beta zeta. rewrite Z.shiftl_mul_pow2 by lia.
  unfold Z.div, Z.modulo.
  destruct (Z.div_eucl (Zpos mw * 2 ^ 24) (Zpos mh)) as [q r]. reflexivity.
Qed.

Lemma rne_new_location mh q r :
  0 < mh -> 0 <= r < mh ->
  let m := round_nearest_even q (new_location mh r) in
  (m = q /\ 2 * r <= mh) \/ (m = q + 1 /\ mh <= 2 * r).
Proof.
  intros Hmh Hr. cbv zeta. rewrite new_location_spec by lia.
  destruct (Z.eqb_spec r 0) as [->|Hr0]; [left; cbn; lia|].
  destruct (Z.compare_spec (2 * r) mh); cbn [round_nearest_even];
    try destruct (Z.even q); lia.
Qed.

Lemma rne_shifted mh q r :
  0 < mh -> 0 <= r < mh -> 0 < q ->
  let m := round_nearest_even (q / 2) (shifted_loc q (new_location mh r)) in
  (m = q / 2 /\ (q = 2 * (q / 2) \/ (q = 2 * (q / 2) + 1 /\ r = 0)))
  \/ (m = q / 2 + 1 /\ q = 2 * (q / 2) + 1).
Proof.
  intros Hmh Hr Hq. cbv zeta. rewrite shifted_loc_spec by lia.
  rewrite new_location_spec by lia.
  pose proof (Z.div_mod q 2 ltac:(lia)) as Hdm.
  rewrite Zmod_odd in Hdm.
  destruct (Z.odd q); destruct (Z.eqb_spec r 0) as [->|Hr0];
    cbn [round_nearest_even]; try destruct (Z.even (q / 2)); lia.
Qed.

Lemma div_normal mw ew mh eh :
  normal mw -> normal mh -> -125 <= ew - eh <= 125 ->
  exists m k k',
    div (S754_finite false mw ew) (S754_finite false mh eh)
      = S754_finite false m (ew - eh - 24 + k)
    /\ 0 <= k' <= 1 /\ k' <= k <= k' + 1 /\ normal m
    /\ 2 ^ (23 + k') * Zpos mh <= Zpos mw * 2 ^ 24
    /\ 2 * Z.abs (Zpos m * 2 ^ k * Zpos mh - Zpos mw * 2 ^ 24)
       <= 2 ^ k' * Zpos mh.
Proof.
  intros Hw Hh He. unfold div, prec, emax, SFdiv.
  rewrite (div_core_normal mw ew mh eh Hw Hh) by lia. cbn [xorb].
  set (q := Zpos mw * 2 ^ 24 / Zpos mh).
  set (r := (Zpos mw * 2 ^ 24) mod Zpos mh).
  assert (Hqr : Zpos mw * 2 ^ 24 = Zpos mh * q + r)
    by (apply Z.div_mod; lia).
  assert (Hr : 0 <= r < Zpos mh) by (apply Z.mod_pos_bound; lia).
  unfold normal in Hw, Hh.
  assert (Hq : 2 ^ 23 <= q < 2 ^ 25).
  { split.
    - apply Z.div_le_lower_bound; [lia|]. nia.
    - apply Z.div_lt_upper_bound; [lia|]. nia. }
  destruct (Z.lt_ge_cases q (2 ^ 24)) as [Hlt|Hge].
  - destruct (round_aux_normal_ex q (ew - eh - 24)
                (new_location (Zpos mh) r) ltac:(lia) ltac:(lia))
      as (m & k & Hrun & Hk & Hm & Hval).
    exists m, k, 0. split; [exact Hrun|].
    split; [lia|]. split; [lia|]. split; [exact Hm|].
    rewrite Hval.
    destruct (rne_new_location (Zpos mh) q r ltac:(lia) Hr) as [[-> H]|[-> H]];
      (split; [nia|]); change (2 ^ 0) with 1; nia.
  - destruct (round_aux_wide_ex q (ew - eh - 24)
                (new_location (Zpos mh) r) ltac:(lia) ltac:(lia))
      as (m & k & Hrun & Hk & Hm & Hval).
    exists m, k, 1. split; [exact Hrun|].
    split; [lia|]. split; [lia|]. split; [exact Hm|].
    rewrite Hval.
    destruct (rne_shifted (Zpos mh) q r ltac:(lia) Hr ltac:(lia))
      as [[-> H]|[-> H]];
      (split; [change (2 ^ (23 + 1)) with (2 ^ 24); nia|]);
      change (2 ^ 1) with 2; nia.
Qed.

Lemma iter_xO_pow p n : Zpos (Pos.iter xO p n) = Zpos p * 2 ^ Zpos n.
Proof.
  induction n as [|n IH] using Pos.peano_ind.
  - cbn [Pos.iter]. change (2 ^ 1) with 2. lia.
  - rewrite Pos.iter_succ, Pos2Z.inj_xO, IH, Pos2Z.inj_succ, Z.pow_succ_r by lia.
    lia.
Qed.

Lemma round_aux_exact m e :
  normal m -> -149 <= e <= 103 ->
  binary_round_aux 24 128 false (Zpos m) e loc_Exact = S754_finite false m e.
Proof.
  intros Hm He. rewrite round_aux_normal by (assumption || exact Hm).
  cbn [round_nearest_even]. unfold normal in Hm.
  destruct (Z.ltb_spec (Zpos m) (2 ^ 24)); [reflexivity | lia].
Qed.

Lemma of_int_normal w :
  0 < w < 2 ^ 24 ->
  exists m s,
    of_int w = S754_finite false m (- s)
    /\ 0 <= s <= 23 /\ normal m /\ Zpos m = w * 2 ^ s.
Proof.
  intros Hw. destruct w as [|p|p]; try lia.
  unfold of_int, prec, emax, binary_normalize, binary_round.
  pose proof (digits2_bounds p) as [Blo Bhi].
  set (d := Zpos (digits2_pos p)) in *.
  assert (Hd : 1 <= d <= 24).
  { split; [unfold d; lia|].
    destruct (Z.le_gt_cases d 24) as [?|Hgt]; [assumption|].
    assert (2 ^ 24 <= 2 ^ (d - 1)) by (apply Z.pow_le_mono_r; lia). lia. }
  unfold fexp, emin.
  replace (Z.max (d + 0 - 24) (3 - 128 - 24)) with (d - 24) by lia.
  unfold shl_align. rewrite Z.sub_0_r.
  destruct (d - 24) as [|n|n] eqn:Hn; try lia.
  - exists p, 0. assert (d = 24) as Hd24 by lia. rewrite Hd24 in *.
    assert (normal p) by (unfold normal; split; assumption).
    split; [apply round_aux_exact; [assumption|lia]|].
    split; [lia|]. split; [assumption|]. change (2 ^ 0) with 1. lia.
  - assert (Hval : Zpos (Pos.iter xO p n) = Zpos p * 2 ^ Zpos n)
      by apply iter_xO_pow.
    assert (Hnorm : normal (Pos.iter xO p n)).
    { unfold normal. rewrite Hval.
      assert (H23 : 2 ^ 23 = 2 ^ (d - 1) * 2 ^ Zpos n)
        by (rewrite <- Z.pow_add_r by lia; f_equal; lia).
      assert (H24 : 2 ^ 24 = 2 ^ d * 2 ^ Zpos n)
        by (rewrite <- Z.pow_add_r by lia; f_equal; lia).
      rewrite H23, H24.
      assert (0 < 2 ^ Zpos n) by (apply Z.pow_pos_nonneg; lia). nia. }
    exists (Pos.iter xO p n), (Zpos n).
    split; [apply round_aux_exact; [assumption|lia]|].
    split; [lia|]. split; [assumption|exact Hval].
Qed.

Lemma iter_shr_1_exact (n : nat) (m : positive) :
  Nat.iter n shr_1 (Build_shr_record (Zpos m * 2 ^ Z.of_nat n) false false)
  = Build_shr_record (Zpos m) false false.
Proof.
  revert m. induction n as [|n IH]; intros m.
  - cbn. f_equal. lia.
  - rewrite Nat2Z.inj_succ, Z.pow_succ_r by lia.
    replace (Zpos m * (2 * 2 ^ Z.of_nat n)) with (Zpos (m~0) * 2 ^ Z.of_nat n)
      by (rewrite (Pos2Z.inj_xO m); ring).
    rewrite Nat.iter_succ, IH. reflexivity.
Qed.

Lemma iter_pos_nat {A} (f : A -> A) p x :
  SpecFloat.iter_pos f p x = Nat.iter (Pos.to_nat p) f x.
Proof.
  revert x. induction p as [p IH|p IH|]; intros x; cbn [SpecFloat.iter_pos].
  - rewrite !IH, Pos2Nat.inj_xI.
    replace (S (2 * Pos.to_nat p)) with (Pos.to_nat p + (Pos.to_nat p + 1))%nat by lia.
    rewrite !Nat.iter_add. reflexivity.
  - rewrite Pos2Nat.inj_xO.
    replace (2 * Pos.to_nat p)%nat with (Pos.to_nat p + Pos.to_nat p)%nat by lia.
    rewrite Nat.iter_add, !IH. reflexivity.
  - reflexivity.
Qed.

Lemma mul_256_normal m e :
  normal m -> -140 <= e <= 90 ->
  mul lit_256 (S754_finite false m e) = S754_finite false m (e + 8).
Proof.
  intros Hm He. unfold mul, prec, emax, lit_256, SFmul. cbn [xorb].
  assert (Hd : Zdigits2 (Zpos (8388608 * m)) = 47).
  { cbn [Zdigits2]. apply digits2_unique. unfold normal in Hm.
    rewrite Pos2Z.inj_mul. change (2 ^ (47 - 1)) with (2 ^ 23 * 2 ^ 23).
    change (2 ^ 47) with (2 ^ 23 * 2 ^ 24). lia. }
  unfold binary_round_aux, shr_fexp at 1. rewrite Hd.
  unfold fexp at 1, emin.
  replace (Z.max (47 + (-15 + e) - 24) (3 - 128 - 24) - (-15 + e)) with 23 by lia.
  cbn [shr shr_record_of_loc]. rewrite iter_pos_nat.
  rewrite Pos2Z.inj_mul, Z.mul_comm.
  change (Zpos 8388608) with (2 ^ Z.of_nat (Pos.to_nat 23)).
  rewrite iter_shr_1_exact.
  cbn [loc_of_shr_record shr_m round_nearest_even].
  unfold shr_fexp. rewrite (Zdigits2_normal (Zpos m) Hm).
  unfold fexp, emin.
  replace (Z.max (24 + (-15 + e + 23) - 24) (3 - 128 - 24) - (-15 + e + 23)) with 0 by lia.
  cbn [shr shr_record_of_loc shr_m].
  destruct (Z.leb_spec (-15 + e + 23) (128 - 24)); [|lia].
  f_equal. lia.
Qed.

(** [trunc_mag m e] is the integer part of [m * 2^e]: with [a] and [b]
    powers of two such that [2^e = b / a]. *)
Lemma trunc_mag_spec m e a b :
  0 < a -> 0 < b ->
  (0 <= e -> b = a * 2 ^ e) -> (e < 0 -> a = b * 2 ^ (- e)) ->
  trunc_mag m e * a <= Zpos m * b < (trunc_mag m e + 1) * a
  /\ 0 <= trunc_mag m e.
Proof.
  intros Ha Hb Hpos Hneg. unfold trunc_mag. destruct e as [|p|p].
  - rewrite Z.shiftl_0_r. rewrite (Hpos ltac:(lia)). change (2 ^ 0) with 1. lia.
  - rewrite Z.shiftl_mul_pow2 by lia. rewrite (Hpos ltac:(lia)).
    assert (0 < 2 ^ Zpos p) by (apply Z.pow_pos_nonneg; lia). nia.
  - rewrite Z.shiftr_div_pow2 by lia. rewrite (Hneg ltac:(lia)).
    change (- Zneg p) with (Zpos p).
    assert (Hp : 0 < 2 ^ Zpos p) by (apply Z.pow_pos_nonneg; lia).
    pose proof (Z.div_mod (Zpos m) (2 ^ Zpos p) ltac:(lia)) as Hdm.
    pose proof (Z.mod_pos_bound (Zpos m) (2 ^ Zpos p) Hp) as Hmod.
    assert (0 <= Zpos m / 2 ^ Zpos p) by (apply Z.div_pos; lia).
    nia.
Qed.

Lemma lowres_float_core w h :
  0 < w < 2 ^ 24 -> 0 < h < 2 ^ 24 ->
  exists (m : positive) sw sh k k',
    mul lit_256 (div (of_int w) (of_int h))
      = S754_finite false m (sh - sw - 16 + k)
    /\ 0 <= sw <= 23 /\ 0 <= sh <= 23 /\ 0 <= k' <= 1 /\ k' <= k <= k' + 1
    /\ 2 ^ 23 * 2 ^ k' * (h * 2 ^ sh) <= w * 2 ^ sw * 2 ^ 24
    /\ 2 * Z.abs (Zpos m * 2 ^ k * (h * 2 ^ sh) - w * 2 ^ sw * 2 ^ 24)
       <= 2 ^ k' * (h * 2 ^ sh)
    /\ trunc_mag m (sh - sw - 16 + k) * (2 ^ sw * 2 ^ 16)
       <= Zpos m * (2 ^ sh * 2 ^ k)
       < (trunc_mag m (sh - sw - 16 + k) + 1) * (2 ^ sw * 2 ^ 16)
    /\ 0 <= trunc_mag m (sh - sw - 16 + k).
Proof.
  intros Hw Hh.
  destruct (of_int_normal w Hw) as (mw & sw & -> & Hsw & Hmw & Hvw).
  destruct (of_int_normal h Hh) as (mh & sh & -> & Hsh & Hmh & Hvh).
  destruct (div_normal mw (- sw) mh (- sh) Hmw Hmh ltac:(lia))
    as (m & k & k' & -> & Hk' & Hk & Hm & Hq & Habs).
  rewrite mul_256_normal by (assumption || lia).
  exists m, sw, sh, k, k'.
  replace (- sw - - sh - 24 + k + 8) with (sh - sw - 16 + k) by lia.
  split; [reflexivity|]. repeat (split; [lia|]).
  rewrite Z.pow_add_r in Hq by lia. rewrite Hvw, Hvh in Hq, Habs.
  split; [exact Hq|]. split; [exact Habs|].
  assert (0 < 2 ^ sw) by (apply Z.pow_pos_nonneg; lia).
  assert (0 < 2 ^ sh) by (apply Z.pow_pos_nonneg; lia).
  assert (0 < 2 ^ k) by (apply Z.pow_pos_nonneg; lia).
  apply trunc_mag_spec; try lia.
  - intros He. rewrite <- !Z.pow_add_r by lia. f_equal. lia.
  - intros He. rewrite <- !Z.pow_add_r by lia. f_equal. lia.
Qed.

Lemma lowres_float w h :
  0 < w < 2 ^ 24 -> 0 < h < 2 ^ 24 ->
  exists f,
    to_uint32 (mul lit_256 (div (of_int w) (of_int h))) = Some f
    /\ 0 <= f
    /\ f * h * 2 ^ 16 <= w * (2 ^ 24 + 1)
    /\ w * (2 ^ 24 - 1) < (f + 1) * h * 2 ^ 16.
Proof.
  intros Hw Hh.
  destruct (lowres_float_core w h Hw Hh)
    as (m & sw & sh & k & k' & -> & Hsw & Hsh & Hk' & Hk & Hq & Habs
        & [Hlo Hhi] & Hf0).
  set (f := trunc_mag m (sh - sw - 16 + k)) in *.
  set (A := 2 ^ sw) in *. set (B := 2 ^ sh) in *. set (K := 2 ^ k) in *.
  set (P := 2 ^ k') in *.
  assert (HA : 0 < A) by (apply Z.pow_pos_nonneg; lia).
  assert (HB : 0 < B) by (apply Z.pow_pos_nonneg; lia).
  assert (HK : 0 < K) by (apply Z.pow_pos_nonneg; lia).
  assert (HP : 0 < P) by (apply Z.pow_pos_nonneg; lia).
  assert (Hup : Zpos m * K * (h * B) <= w * A * (2 ^ 24 + 1)) by lia.
  assert (Hdn : w * A * (2 ^ 24 - 1) <= Zpos m * K * (h * B)) by lia.
  assert (Hupper : f * h * 2 ^ 16 <= w * (2 ^ 24 + 1)).
  { apply Z.mul_le_mono_pos_r with (p := A); [exact HA|].
    apply Z.le_trans with (Zpos m * K * (h * B)); [|lia].
    replace (f * h * 2 ^ 16 * A) with (f * (A * 2 ^ 16) * h) by ring.
    replace (Zpos m * K * (h * B)) with (Zpos m * (B * K) * h) by ring.
    apply Z.mul_le_mono_nonneg_r; lia. }
  assert (Hlower : w * (2 ^ 24 - 1) < (f + 1) * h * 2 ^ 16).
  { apply Z.mul_lt_mono_pos_r with (p := A); [exact HA|].
    apply Z.le_lt_trans with (Zpos m * K * (h * B)); [lia|].
    replace ((f + 1) * h * 2 ^ 16 * A) with ((f + 1) * (A * 2 ^ 16) * h) by ring.
    replace (Zpos m * K * (h * B)) with (Zpos m * (B * K) * h) by ring.
    apply Z.mul_lt_mono_pos_r; lia. }
  exists f. unfold to_uint32. fold f.
  destruct (Z.ltb_spec f (2 ^ 32)) as [_|Hbig]; [auto|].
  exfalso.
  assert (2 ^ 32 * 1 * 2 ^ 16 <= f * h * 2 ^ 16).
  { apply Z.mul_le_mono_nonneg_r; [lia|]. apply Z.mul_le_mono_nonneg; lia. }
  lia.
Qed.

Lemma lowres_float_integral w h n :
  0 < w < 2 ^ 24 -> 0 < h < 2 ^ 24 ->
  n < 2 ^ 24 -> n * h = 256 * w ->
  forall f, to_uint32 (mul lit_256 (div (of_int w) (of_int h))) = Some f ->
  n <= f.
Proof.
  intros Hw Hh Hn Hnh f Hf.
  destruct (lowres_float_core w h Hw Hh)
    as (m & sw & sh & k & k' & Hrun & Hsw & Hsh & Hk' & Hk & Hq & Habs
        & [Hlo Hhi] & Hf0).
  rewrite Hrun in Hf. unfold to_uint32 in Hf.
  destruct (trunc_mag m (sh - sw - 16 + k) <? 2 ^ 32); [|discriminate].
  injection Hf as Hf. rewrite Hf in *. clear Hrun Hlo.
  destruct (Z.le_gt_cases n f) as [?|Hlt]; [assumption|exfalso].
  set (A := 2 ^ sw) in *. set (B := 2 ^ sh) in *. set (P := 2 ^ k') in *.
  assert (HA : 0 < A) by (apply Z.pow_pos_nonneg; lia).
  assert (HB : 0 < B) by (apply Z.pow_pos_nonneg; lia).
  assert (HP : 0 < P) by (apply Z.pow_pos_nonneg; lia).
  assert (HK : 2 ^ k = P * 2 ^ (k - k')).
  { unfold P. rewrite <- Z.pow_add_r by lia. f_equal. lia. }
  set (U := 2 ^ (k - k')) in *.
  assert (HU : 0 < U) by (apply Z.pow_pos_nonneg; lia).
  rewrite HK in *.
  assert (Hw24 : w * A * 2 ^ 24 = n * h * (A * 2 ^ 16)).
  { rewrite Hnh. change (2 ^ 24) with (256 * 2 ^ 16). ring. }
  rewrite Hw24 in Hq, Habs.
  (* the exponents: [A * 2^16] is a multiple of [P * B] *)
  assert (Hlt2 : 2 ^ 23 * (P * B) < 2 ^ 24 * (A * 2 ^ 16)).
  { apply Z.le_lt_trans with (n * (A * 2 ^ 16)).
    - apply Z.mul_le_mono_pos_r with (p := h); [lia|].
      replace (2 ^ 23 * (P * B) * h) with (2 ^ 23 * P * (h * B)) by ring.
      replace (n * (A * 2 ^ 16) * h) with (n * h * (A * 2 ^ 16)) by ring.
      exact Hq.
    - apply Z.mul_lt_mono_pos_r; lia. }
  assert (Ht : 0 <= sw + 16 - k' - sh).
  { assert (2 ^ (k' + sh) < 2 ^ (sw + 17)) as Hpow.
    { rewrite !Z.pow_add_r by lia. fold A B P.
      change (2 ^ 17) with (2 * 2 ^ 16). lia. }
    apply Z.pow_lt_mono_r_iff in Hpow; lia. }
  assert (HT : A * 2 ^ 16 = P * B * 2 ^ (sw + 16 - k' - sh)).
  { unfold A, B, P. rewrite <- !Z.pow_add_r by lia. f_equal. lia. }
  set (T := 2 ^ (sw + 16 - k' - sh)) in *.
  assert (HTpos : 0 < T) by (apply Z.pow_pos_nonneg; lia).
  rewrite HT in *.
  assert (HPB : 0 < P * B) by lia.
  (* [m * U < n * T], both integers *)
  assert (Hmn : Zpos m * U < n * T).
  { apply Z.mul_lt_mono_pos_r with (p := P * B); [exact HPB|].
    apply Z.lt_le_trans with ((f + 1) * (P * B * T)); [|].
    - replace (Zpos m * U * (P * B)) with (Zpos m * (B * (P * U))) by ring.
      exact Hhi.
    - replace (n * T * (P * B)) with (n * (P * B * T)) by ring.
      apply Z.mul_le_mono_nonneg_r; lia. }
  assert (Hgap : P * (h * B) <= (n * T - Zpos m * U) * (P * (h * B))).
  { rewrite <- (Z.mul_1_l (P * (h * B))) at 1.
    apply Z.mul_le_mono_nonneg_r; lia. }
  replace (Zpos m * (P * U) * (h * B) - n * h * (P * B * T))
    with (- ((n * T - Zpos m * U) * (P * (h * B)))) in Habs by ring.
  assert (0 < P * (h * B)) by lia.
  lia.
Qed.

Lemma lowres_float_exact w h :
  0 < w < 2 ^ 16 -> 0 < h < 2 ^ 24 ->
  to_uint32 (mul lit_256 (div (of_int w) (of_int h))) = Some (256 * w / h).
Proof.
  intros Hw Hh.
  destruct (lowres_float w h ltac:(lia) Hh) as (f & Hf & Hf0 & Hup & Hdn).
  rewrite Hf. f_equal.
  pose proof (Z.div_mod (256 * w) h ltac:(lia)) as Hdm.
  pose proof (Z.mod_pos_bound (256 * w) h ltac:(lia)) as Hmod.
  set (n := 256 * w / h) in *. set (j := (256 * w) mod h) in *.
  assert (Hn0 : 0 <= n) by (apply Z.div_pos; lia).
  assert (Hnh : n * h <= 256 * w) by lia.
  assert (Hn : n < 2 ^ 24).
  { destruct (Z.lt_ge_cases n (2 ^ 24)); [assumption|].
    assert (2 ^ 24 * 1 <= n * h) by (apply Z.mul_le_mono_nonneg; lia). lia. }
  assert (f <= n).
  { destruct (Z.le_gt_cases f n) as [?|Hgt]; [assumption|exfalso].
    assert ((n + 1) * h * 2 ^ 16 <= f * h * 2 ^ 16).
    { apply Z.mul_le_mono_nonneg_r; [lia|].
      apply Z.mul_le_mono_nonneg_r; lia. }
    assert (1 <= h - j) by lia.
    assert (256 * ((n + 1) * h * 2 ^ 16) <= 256 * (w * (2 ^ 24 + 1))) by lia.
    replace (256 * ((n + 1) * h * 2 ^ 16)) with ((h * n + h) * 2 ^ 24) in * by
      (change (2 ^ 24) with (256 * 2 ^ 16); ring).
    lia. }
  assert (n <= f).
  { destruct (Z.eq_dec j 0) as [Hj|Hj].
    - apply (lowres_float_integral w h n); try lia. exact Hf.
    - destruct (Z.le_gt_cases n f) as [?|Hgt]; [assumption|exfalso].
      assert ((f + 1) * h * 2 ^ 16 <= n * h * 2 ^ 16).
      { apply Z.mul_le_mono_nonneg_r; [lia|].
        apply Z.mul_le_mono_nonneg_r; lia. }
      assert (256 * (w * (2 ^ 24 - 1)) < 256 * (n * h * 2 ^ 16)) by lia.
      replace (256 * (n * h * 2 ^ 16)) with ((h * n) * 2 ^ 24) in * by
        (change (2 ^ 24) with (256 * 2 ^ 16); ring).
      lia. }
  lia.
Qed.

(** ** [updateLowResTexture] *)

Lemma updateLowResTexture_run pTexture s :
  updateLowResTexture pTexture s =
  match lowResWidth pTexture with
  | None => None
  | Some w =>
      if needsCreate (mpLowResTexture (this s)) w (lowResHeight pTexture)
           (getFormat pTexture)
      then
        let t := lowResTexture s w (lowResHeight pTexture) (getFormat pTexture) in
        Some (tt, mkEnv (set_mpLowResTexture (Some t) (this s)) (context s)
                    (t :: textures s))
      else Some (tt, s)
  end.
Proof.
  unfold updateLowResTexture, bind, gets, deref, ret, undefined; cbn.
  destruct (lowResWidth pTexture) as [w|]; [|reflexivity].
  destruct (mpLowResTexture (this s)) as [t|] eqn:Hlow; cbn.
  - destruct (negb (w =? getWidth t) || negb (lowResHeight pTexture =? getHeight t)
              || negb (getFormat pTexture =? getFormat t)%N); reflexivity.
  - reflexivity.
Qed.

Lemma needsCreate_true low w h fmt :
  needsCreate low w h fmt = true <->
  low = None \/
  exists t, low = Some t /\
    (w <> getWidth t \/ h <> getHeight t \/ fmt <> getFormat t).
Proof.
  destruct low as [t|]; cbn.
  - rewrite !orb_true_iff, !negb_true_iff, !Z.eqb_neq, N.eqb_neq. split.
    + intros H. right. exists t. split; [reflexivity|tauto].
    + intros [H|(t' & [= <-] & H)]; [discriminate|tauto].
  - split; [auto | reflexivity].
Qed.

Lemma not_reallocated_same s : ~ reallocated s s.
Proof.
  intros (t & H & _). apply (f_equal length) in H. cbn in H. lia.
Qed.

(** C2, as stated, fails: [Sample.bloomOtherFormat] has a low-resolution
    texture of exactly the size computed for [Sample.fullHD] (480 by 270),
    and the call reallocates it all the same, because the formats differ. *)
Lemma realloc_without_dimension_change :
  ~ (forall s pTexture s',
       updateLowResTexture pTexture s = Some (tt, s') ->
       (reallocated s s' <->
        mpLowResTexture (this s) = None
        \/ exists t, mpLowResTexture (this s) = Some t
             /\ (lowResWidth pTexture <> Some (getWidth t)
                 \/ lowResHeight pTexture <> getHeight t))).
Proof.
  intros claim.
  destruct (updateLowResTexture Sample.fullHD (Sample.env Sample.bloomOtherFormat))
    as [[[] s']|] eqn:Hrun; [|discriminate Hrun].
  specialize (claim _ _ _ Hrun).
  assert (R : reallocated (Sample.env Sample.bloomOtherFormat) s').
  { vm_compute in Hrun. injection Hrun as <-. eexists. split; reflexivity. }
  apply claim in R. destruct R as [R | (t & Ht & [R | R])].
  - discriminate R.
  - injection Ht as <-. apply R. reflexivity.
  - injection Ht as <-. apply R. reflexivity.
Qed.

(** C2, amended.  The low-resolution texture is reallocated if and only if
    there is none yet, or the computed width or height differs from the
    current one's, or the input's format differs from the current one's;
    otherwise the call changes nothing. *)
Theorem realloc_iff_missing_or_changed s pTexture w :
  lowResWidth pTexture = Some w ->
  exists s',
    updateLowResTexture pTexture s = Some (tt, s')
    /\ (reallocated s s' <->
         mpLowResTexture (this s) = None
         \/ exists t, mpLowResTexture (this s) = Some t
              /\ (w <> getWidth t
                  \/ lowResHeight pTexture <> getHeight t
                  \/ getFormat pTexture <> getFormat t))
    /\ (~ reallocated s s' -> s' = s).
Proof.
  intros Hw. rewrite updateLowResTexture_run, Hw.
  pose proof (needsCreate_true (mpLowResTexture (this s)) w
                (lowResHeight pTexture) (getFormat pTexture)) as Hiff.
  destruct (needsCreate _ _ _ _) eqn:Hn; eexists; (split; [reflexivity|]).
  - assert (R : reallocated s
        (mkEnv (set_mpLowResTexture
                  (Some (lowResTexture s w (lowResHeight pTexture) (getFormat pTexture)))
                  (this s)) (context s)
           (lowResTexture s w (lowResHeight pTexture) (getFormat pTexture) :: textures s))).
    { eexists. split; reflexivity. }
    split; [tauto | intros N; destruct (N R)].
  - split; [|reflexivity]. split.
    + intros R. destruct (not_reallocated_same _ R).
    + intros H. apply Hiff in H. discriminate.
Qed.

Lemma realloc_iff_missing_or_changed_witness :
  lowResWidth Sample.fullHD = Some 480
  /\ exists s',
       updateLowResTexture Sample.fullHD (Sample.env Sample.bloom) = Some (tt, s')
       /\ reallocated (Sample.env Sample.bloom) s'.
Proof.
  split; [reflexivity|].
  destruct (realloc_iff_missing_or_changed (Sample.env Sample.bloom)
              Sample.fullHD 480 eq_refl) as (s' & Hrun & Hiff & _).
  exists s'. split; [exact Hrun|]. apply Hiff. left. reflexivity.
Defined.

(** C10.  After a call with an input of width [w] and height [h] the
    low-resolution texture exists, its height is [max (h / 4) 256], its
    width is [max (w / 4) f], where [f] is [256.0f * ((float)w / (float)h)]
    converted to [uint32_t], and its format is the input's. *)
Theorem low_res_texture_invariant s pTexture f :
  to_uint32 (mul lit_256 (div (of_int (getWidth pTexture))
                              (of_int (getHeight pTexture)))) = Some f ->
  exists s' t,
    updateLowResTexture pTexture s = Some (tt, s')
    /\ mpLowResTexture (this s') = Some t
    /\ getHeight t = Z.max (getHeight pTexture / 4) 256
    /\ getWidth t = Z.max (getWidth pTexture / 4) f
    /\ getFormat t = getFormat pTexture.
Proof.
  intros Hf. rewrite updateLowResTexture_run.
  unfold lowResWidth, aspectRatio. rewrite Hf. cbn.
  fold (lowResHeight pTexture).
  destruct (needsCreate _ _ _ _) eqn:Hn.
  - eexists _, _. split; [reflexivity|]. cbn. repeat split.
  - destruct (mpLowResTexture (this s)) as [t|] eqn:Hlow; [|discriminate].
    cbn in Hn. rewrite !orb_false_iff, !negb_false_iff in Hn.
    destruct Hn as [[Hw Hh] Hfmt].
    apply Z.eqb_eq in Hw, Hh. apply N.eqb_eq in Hfmt.
    exists s, t. repeat split; auto.
Qed.

Lemma low_res_texture_invariant_witness :
  exists s' t,
    updateLowResTexture Sample.fullHD (Sample.env Sample.bloom) = Some (tt, s')
    /\ mpLowResTexture (this s') = Some t
    /\ getHeight t = 270 /\ getWidth t = 480
    /\ getFormat t = Sample.RGBA8Unorm.
Proof.
  exact (low_res_texture_invariant (Sample.env Sample.bloom) Sample.fullHD 455
           eq_refl).
Defined.

(** C8.  A second call with the same texture, right after a first one,
    allocates nothing and leaves the low-resolution texture, and the whole
    state, as the first call left them. *)
Theorem updateLowResTexture_idempotent s pTexture s1 :
  updateLowResTexture pTexture s = Some (tt, s1) ->
  exists s2,
    updateLowResTexture pTexture s1 = Some (tt, s2)
    /\ textures s2 = textures s1
    /\ mpLowResTexture (this s2) = mpLowResTexture (this s1)
    /\ s2 = s1.
Proof.
  intros H1. exists s1. split; [|repeat split].
  rewrite updateLowResTexture_run in *.
  destruct (lowResWidth pTexture) as [w|]; [|discriminate].
  destruct (needsCreate (mpLowResTexture (this s)) _ _ _) eqn:Hn.
  - injection H1 as <-. cbn.
    rewrite !Z.eqb_refl, N.eqb_refl. reflexivity.
  - injection H1 as <-. rewrite Hn. reflexivity.
Qed.

Lemma updateLowResTexture_idempotent_witness :
  updateLowResTexture Sample.fullHD (Sample.env Sample.bloom)
    = Some (tt, Sample.afterFirstCall)
  /\ exists s2,
       updateLowResTexture Sample.fullHD Sample.afterFirstCall = Some (tt, s2)
       /\ textures s2 = textures Sample.afterFirstCall.
Proof.
  split; [vm_compute; reflexivity|].
  destruct (updateLowResTexture_idempotent (Sample.env Sample.bloom)
              Sample.fullHD Sample.afterFirstCall
              ltac:(vm_compute; reflexivity)) as (s2 & Hrun2 & Htex & _).
  exists s2. split; assumption.
Defined.

(** *** The size of the low-resolution texture *)

(** For widths and heights below [2^24] the conversion to [uint32_t] is
    defined, so [updateLowResTexture] runs to its end. *)
Lemma lowResWidth_defined pTexture :
  0 < getWidth pTexture < 2 ^ 24 -> 0 < getHeight pTexture < 2 ^ 24 ->
  exists w, lowResWidth pTexture = Some w.
Proof.
  intros Hw Hh. unfold lowResWidth, aspectRatio.
  destruct (lowres_float _ _ Hw Hh) as (f & -> & _). cbn. eauto.
Qed.

(** For widths below [2^16] the [float] computation is exact: the width is
    the integer [max (w / 4) (256 * w / h)]. *)
Lemma lowResWidth_exact pTexture :
  0 < getWidth pTexture < 2 ^ 16 -> 0 < getHeight pTexture < 2 ^ 24 ->
  lowResWidth pTexture =
    Some (Z.max (getWidth pTexture / 4)
                (256 * getWidth pTexture / getHeight pTexture)).
Proof.
  intros Hw Hh. unfold lowResWidth, aspectRatio.
  rewrite (lowres_float_exact _ _ Hw Hh). reflexivity.
Qed.

(** Widths of [2^24] and more are rounded when converted to [float], and
    the bound of the theorem below is lost: a texture [2^25 - 1] wide and
    256 high gets a low-resolution texture [2^25] wide. *)
Example lowResWidth_rounded_up :
  lowResWidth (Sample.texture 0 (2 ^ 25 - 1) 256 Sample.RGBA8Unorm)
  = Some (2 ^ 25).
Proof. reflexivity. Qed.

(** C3, as stated, fails: for the 100 by 100 texture [Sample.small] the
    computed size is 256 by 256, larger than the input both ways. *)
Lemma low_res_larger_than_small_input :
  ~ (forall pTexture w,
       0 < getWidth pTexture -> 0 < getHeight pTexture ->
       lowResWidth pTexture = Some w ->
       w <= getWidth pTexture /\ lowResHeight pTexture <= getHeight pTexture).
Proof.
  intros claim.
  destruct (claim Sample.small 256 ltac:(cbn; lia) ltac:(cbn; lia) eq_refl)
    as [Hw _].
  cbn in Hw. lia.
Qed.

(** Below 256 rows the computed height is 256, more than the input's. *)
Lemma lowResHeight_small pTexture :
  0 <= getHeight pTexture < 256 ->
  lowResHeight pTexture = 256 /\ getHeight pTexture < lowResHeight pTexture.
Proof.
  intros Hh. unfold lowResHeight.
  assert (getHeight pTexture / 4 < 256)
    by (apply Z.div_lt_upper_bound; lia).
  lia.
Qed.

(** C3, amended.  For an input at least 256 rows high (of positive width,
    and with width and height below [2^24]) the computed width and height
    are each no greater than the input's. *)
Theorem low_res_no_larger_than_input pTexture :
  0 < getWidth pTexture < 2 ^ 24 -> 256 <= getHeight pTexture < 2 ^ 24 ->
  exists w,
    lowResWidth pTexture = Some w
    /\ w <= getWidth pTexture
    /\ lowResHeight pTexture <= getHeight pTexture.
Proof.
  intros Hw Hh. unfold lowResWidth, lowResHeight, aspectRatio.
  destruct (lowres_float (getWidth pTexture) (getHeight pTexture) Hw
              ltac:(lia)) as (f & -> & Hf0 & Hup & _).
  cbn. eexists. split; [reflexivity|].
  assert (getWidth pTexture / 4 <= getWidth pTexture)
    by (apply Z.div_le_upper_bound; lia).
  assert (getHeight pTexture / 4 <= getHeight pTexture)
    by (apply Z.div_le_upper_bound; lia).
  assert (f * 256 * 2 ^ 16 <= f * getHeight pTexture * 2 ^ 16).
  { apply Z.mul_le_mono_nonneg_r; [lia|].
    apply Z.mul_le_mono_nonneg_l; lia. }
  lia.
Qed.

Lemma low_res_no_larger_than_input_witness :
  exists w, lowResWidth Sample.fullHD = Some w
            /\ w <= 1920 /\ lowResHeight Sample.fullHD <= 1080.
Proof.
  apply (low_res_no_larger_than_input Sample.fullHD); cbn; lia.
Defined.

(** ** [execute] *)

Section Execute.
Context {E : Engine}.

(** After [updateLowResTexture] the low-resolution texture exists and has
    the computed size. *)
Lemma updateLowResTexture_result s pTexture w :
  lowResWidth pTexture = Some w ->
  exists s1 low,
    updateLowResTexture pTexture s = Some (tt, s1)
    /\ mpLowResTexture (this s1) = Some low
    /\ getWidth low = w /\ getHeight low = lowResHeight pTexture
    /\ getFormat low = getFormat pTexture
    /\ context s1 = context s
    /\ mpFilter (this s1) = mpFilter (this s)
    /\ mpBlur (this s1) = mpBlur (this s)
    /\ mpBlitPass (this s1) = mpBlitPass (this s)
    /\ mpAdditiveBlend (this s1) = mpAdditiveBlend (this s)
    /\ mSrcTexLoc (this s1) = mSrcTexLoc (this s)
    /\ mpVars (this s1) = mpVars (this s)
    /\ mpFilterResultFbo (this s1) = mpFilterResultFbo (this s).
Proof.
  intros Hw. rewrite updateLowResTexture_run, Hw.
  destruct (needsCreate _ _ _ _) eqn:Hn.
  - eexists _, _. split; [reflexivity|]. cbn. repeat split.
  - destruct (mpLowResTexture (this s)) as [t|] eqn:Hlow; [|discriminate].
    cbn in Hn. rewrite !orb_false_iff, !negb_false_iff in Hn.
    destruct Hn as [[Hw' Hh] Hfmt].
    apply Z.eqb_eq in Hw', Hh. apply N.eqb_eq in Hfmt.
    exists s, t. repeat split; auto.
Qed.

Lemma execute_run s pFbo tex0 s1 low :
  getColorTexture pFbo 0 = Some tex0 ->
  updateLowResTexture tex0 s = Some (tt, s1) ->
  mpLowResTexture (this s1) = Some low ->
  execute pFbo s = Some (tt, afterExecute pFbo tex0 low s1).
Proof.
  intros Htex Hupd Hlow.
  unfold execute, bind at 1. rewrite Htex. cbn [deref ret].
  unfold bind at 1. rewrite Hupd.
  unfold bind at 1. cbn [gets]. unfold bind at 1. rewrite Hlow.
  reflexivity.
Qed.

(** C1.  A call of [execute] submits exactly four pieces of GPU work, in
    this order: the blit of the frame buffer's colour texture 0 into the
    low-resolution texture; the high-pass filter over the low-resolution
    texture; the Gaussian blur of the filter's result, written into the
    frame buffer whose colour target 0 is that same texture; and the
    full-screen pass that reads that texture and draws onto the frame
    buffer the call was given, with the additive blend state. *)
Theorem execute_stages s pFbo tex0 w :
  getColorTexture pFbo 0 = Some tex0 ->
  lowResWidth tex0 = Some w ->
  exists s' low result blurTarget vars,
    execute pFbo s = Some (tt, s')
    /\ mpLowResTexture (this s') = Some low
    /\ getWidth low = w /\ getHeight low = lowResHeight tex0
    /\ result = PassFilter_result (mpFilter (this s)) low
    /\ getColorTexture blurTarget 0 = Some result
    /\ getSrv vars (mSrcTexLoc (this s)) 0 = Some (getSRV result)
    /\ commands (context s') =
         commands (context s) ++
         [ CmdBlit (getSRV tex0) (getRTV low);
           CmdPassFilter (mpFilter (this s)) low result;
           CmdGaussianBlur (mpBlur (this s)) result blurTarget;
           CmdFullScreenPass (mpBlitPass (this s)) (Some pFbo) (Some vars)
             None (mpAdditiveBlend (this s)) ].
Proof.
  intros Htex Hw.
  destruct (updateLowResTexture_result s tex0 w Hw)
    as (s1 & low & Hupd & Hlow & Hlw & Hlh & _ & Hctx & Hf & Hb & Hp & Ha
        & Hloc & Hv & Hfbo).
  exists (afterExecute pFbo tex0 low s1), low.
  eexists _, _, _.
  split; [exact (execute_run s pFbo tex0 s1 low Htex Hupd Hlow)|].
  split; [exact Hlow|]. split; [exact Hlw|]. split; [exact Hlh|].
  split; [reflexivity|].
  split; [|split].
  3:{ cbn. rewrite Hctx, Hf, Hb, Hp, Ha, <- !app_assoc. cbn. reflexivity. }
  - rewrite <- Hf. unfold getColorTexture, attachColorTarget. cbn.
    apply lookup_insert_eq.
  - rewrite <- Hloc, <- Hf. unfold getSrv, setSrv. cbn.
    apply lookup_insert_eq.
Qed.

(** C9.  [execute] pops what it pushed: the frame-buffer stack of the
    graphics state and the stack of program variables of the context are
    the same after the call as before it. *)
Theorem execute_restores_stacks s pFbo tex0 w :
  getColorTexture pFbo 0 = Some tex0 ->
  lowResWidth tex0 = Some w ->
  exists s',
    execute pFbo s = Some (tt, s')
    /\ fboStack (context s') = fboStack (context s)
    /\ graphicsVarsStack (context s') = graphicsVarsStack (context s).
Proof.
  intros Htex Hw.
  destruct (updateLowResTexture_result s tex0 w Hw)
    as (s1 & low & Hupd & Hlow & _ & _ & _ & Hctx & _).
  exists (afterExecute pFbo tex0 low s1).
  split; [exact (execute_run s pFbo tex0 s1 low Htex Hupd Hlow)|].
  cbn. rewrite Hctx. split; reflexivity.
Qed.

(** What a call that returns has done. *)
Lemma execute_inv s pFbo s' :
  execute pFbo s = Some (tt, s') ->
  exists tex0 s1 low,
    getColorTexture pFbo 0 = Some tex0
    /\ updateLowResTexture tex0 s = Some (tt, s1)
    /\ mpLowResTexture (this s1) = Some low
    /\ mpFilter (this s1) = mpFilter (this s)
    /\ mpBlur (this s1) = mpBlur (this s)
    /\ mpAdditiveBlend (this s1) = mpAdditiveBlend (this s)
    /\ s' = afterExecute pFbo tex0 low s1.
Proof.
  intros Hrun.
  destruct (getColorTexture pFbo 0) as [tex0|] eqn:Htex.
  2:{ unfold execute, bind at 1 in Hrun. rewrite Htex in Hrun. discriminate. }
  destruct (lowResWidth tex0) as [w|] eqn:Hw.
  2:{ unfold execute, bind at 1 in Hrun. rewrite Htex in Hrun.
      cbn [deref ret] in Hrun. unfold bind at 1 in Hrun.
      rewrite updateLowResTexture_run, Hw in Hrun. discriminate. }
  destruct (updateLowResTexture_result s tex0 w Hw)
    as (s1 & low & Hupd & Hlow & _ & _ & _ & _ & Hf & Hb & _ & Ha & _).
  rewrite (execute_run s pFbo tex0 s1 low Htex Hupd Hlow) in Hrun.
  injection Hrun as <-. exists tex0, s1, low. repeat split; assumption.
Qed.

(** X9.  [execute] leaves the stages and the blend state of the effect as
    they were: only the low-resolution texture, the frame buffer of the
    filter's result and the bound source texture change. *)
Lemma execute_keeps_configuration s pFbo s' :
  execute pFbo s = Some (tt, s') ->
  mpFilter (this s') = mpFilter (this s)
  /\ mpBlur (this s') = mpBlur (this s)
  /\ mpBlitPass (this s') = mpBlitPass (this s)
  /\ mpAdditiveBlend (this s') = mpAdditiveBlend (this s)
  /\ mpSampler (this s') = mpSampler (this s)
  /\ mSrcTexLoc (this s') = mSrcTexLoc (this s).
Proof.
  intros Hrun.
  destruct (getColorTexture pFbo 0) as [tex0|] eqn:Htex.
  2:{ unfold execute, bind at 1 in Hrun. rewrite Htex in Hrun. discriminate. }
  destruct (lowResWidth tex0) as [w|] eqn:Hw.
  2:{ unfold execute, bind at 1 in Hrun. rewrite Htex in Hrun.
      cbn [deref ret] in Hrun. unfold bind at 1 in Hrun.
      rewrite updateLowResTexture_run, Hw in Hrun. discriminate. }
  pose proof (execute_run s pFbo tex0) as Hstep.
  rewrite updateLowResTexture_run, Hw in Hstep.
  destruct (needsCreate _ _ _ _) eqn:Hn.
  - rewrite (Hstep _ _ Htex eq_refl eq_refl) in Hrun.
    injection Hrun as <-. cbn. repeat split.
  - destruct (mpLowResTexture (this s)) as [t|] eqn:Hlow; [|discriminate].
    rewrite (Hstep s t Htex eq_refl Hlow) in Hrun.
    injection Hrun as <-. cbn. repeat split.
Qed.

(** X2.  [execute] runs to its end exactly when the frame buffer has a
    colour texture 0 and the conversion of the low-resolution width is
    defined, so the two theorems above cover every call that returns;
    without a colour texture 0 the call dereferences a null pointer. *)
Lemma execute_defined s pFbo :
  execute pFbo s <> None <->
  exists tex0 w, getColorTexture pFbo 0 = Some tex0
                 /\ lowResWidth tex0 = Some w.
Proof.
  split.
  - intros Hrun.
    destruct (getColorTexture pFbo 0) as [tex0|] eqn:Htex.
    + destruct (lowResWidth tex0) as [w|] eqn:Hw; [eauto|].
      exfalso. apply Hrun. unfold execute, bind at 1. rewrite Htex.
      cbn [deref ret]. unfold bind at 1.
      rewrite updateLowResTexture_run, Hw. reflexivity.
    + exfalso. apply Hrun. unfold execute, bind at 1. rewrite Htex.
      reflexivity.
  - intros (tex0 & w & Htex & Hw).
    destruct (updateLowResTexture_result s tex0 w Hw)
      as (s1 & low & Hupd & Hlow & _).
    rewrite (execute_run s pFbo tex0 s1 low Htex Hupd Hlow). discriminate.
Qed.

End Execute.

Lemma execute_stages_witness :
  exists s', @execute Sample.engine Sample.backBuffer
               (Sample.env Sample.bloom) = Some (tt, s')
             /\ length (commands (context s')) = 4%nat.
Proof.
  destruct (@execute_stages Sample.engine (Sample.env Sample.bloom)
              Sample.backBuffer Sample.fullHD 480
              ltac:(vm_compute; reflexivity) eq_refl)
    as (s' & low & result & blurTarget & vars & Hrun & _ & _ & _ & _ & _ & _ & Hc).
  exists s'. split; [exact Hrun|]. rewrite Hc. reflexivity.
Defined.

Lemma execute_restores_stacks_witness :
  exists s', @execute Sample.engine Sample.backBuffer
               (Sample.env Sample.bloom) = Some (tt, s')
             /\ fboStack (context s') = []
             /\ graphicsVarsStack (context s') = [].
Proof.
  exact (@execute_restores_stacks Sample.engine (Sample.env Sample.bloom)
           Sample.backBuffer Sample.fullHD 480
           ltac:(vm_compute; reflexivity) eq_refl).
Defined.

(** ** The stages of a created effect *)

Section Stages.
Context {E : Engine}.
Variables (threshold : float) (kernelSize : Z) (sigma : float).

(** C4.  The blend state the constructor builds is additive: on render
    target 0 blending is enabled, the RGB operation is [Add] and the source
    and destination RGB factors are both [One], so a colour channel of the
    result is the sum of the source's and the destination's.  It is the
    blend state that the final full-screen pass of [execute] is given. *)
Theorem additive_blend_state :
  let b := Bloom_create threshold kernelSize sigma in
  let rt := getRtDesc (mpAdditiveBlend b) 0 in
  blendEnabled rt = true
  /\ rgbBlendOp rt = Add
  /\ srcRgbFunc rt = One
  /\ dstRgbFunc rt = One
  /\ (forall src dst, blendRgb rt src dst = Some (src + dst))
  /\ forall ctx texs pFbo s',
       execute pFbo (mkEnv b ctx texs) = Some (tt, s') ->
       exists pass vars,
         last (commands (context s'))
         = Some (CmdFullScreenPass pass (Some pFbo) vars None
                   (mpAdditiveBlend b)).
Proof.
  cbv zeta. repeat split.
  - intros src dst. unfold blendRgb. cbn. f_equal. lia.
  - intros ctx texs pFbo s' Hrun.
    destruct (execute_inv _ _ _ Hrun)
      as (tex0 & s1 & low & _ & _ & _ & _ & _ & Ha & ->).
    cbn [this] in Ha. eexists _, _. cbn [afterExecute context commands].
    rewrite last_snoc, Ha. reflexivity.
Qed.

(** C5.  The filter stage of a created effect is a high-pass filter whose
    cutoff is the threshold given to [Bloom::create]: that is the filter
    the effect holds, and the one a call of [execute] on it runs. *)
Theorem filter_is_high_pass_with_threshold :
  let b := Bloom_create threshold kernelSize sigma in
  filterType (mpFilter b) = HighPass
  /\ getThreshold (mpFilter b) = threshold
  /\ forall ctx texs pFbo s',
       execute pFbo (mkEnv b ctx texs) = Some (tt, s') ->
       mpFilter (this s') = PassFilter_create HighPass threshold
       /\ exists src result,
            In (CmdPassFilter (PassFilter_create HighPass threshold) src result)
               (commands (context s')).
Proof.
  cbv zeta. split; [reflexivity|]. split; [reflexivity|].
  intros ctx texs pFbo s' Hrun.
  destruct (execute_inv _ _ _ Hrun)
    as (tex0 & s1 & low & _ & _ & _ & Hf & _ & _ & ->).
  cbn [this] in Hf. split.
  - cbn. exact Hf.
  - exists low, (PassFilter_result (mpFilter (this s1)) low).
    cbn. rewrite Hf. rewrite !in_app_iff. cbn [In]. tauto.
Qed.

(** C6.  The blur stage of a created effect is a Gaussian blur with the
    kernel width and the sigma given to [Bloom::create]: that is the blur
    the effect holds, and the one a call of [execute] on it runs. *)
Theorem blur_has_kernel_and_sigma :
  let b := Bloom_create threshold kernelSize sigma in
  getKernelWidth (mpBlur b) = kernelSize
  /\ getSigma (mpBlur b) = sigma
  /\ forall ctx texs pFbo s',
       execute pFbo (mkEnv b ctx texs) = Some (tt, s') ->
       mpBlur (this s') = GaussianBlur_create kernelSize sigma
       /\ exists src dst,
            In (CmdGaussianBlur (GaussianBlur_create kernelSize sigma) src dst)
               (commands (context s')).
Proof.
  cbv zeta. split; [reflexivity|]. split; [reflexivity|].
  intros ctx texs pFbo s' Hrun.
  destruct (execute_inv _ _ _ Hrun)
    as (tex0 & s1 & low & _ & _ & _ & _ & Hb & _ & ->).
  cbn [this] in Hb. split.
  - cbn. exact Hb.
  - eexists _, _. cbn. rewrite Hb. rewrite !in_app_iff. cbn [In].
    left. right. left. reflexivity.
Qed.

End Stages.

Lemma additive_blend_state_witness :
  exists s' c,
    @execute Sample.engine Sample.backBuffer (Sample.env Sample.bloom)
      = Some (tt, s')
    /\ last (commands (context s')) = Some c.
Proof.
  destruct (@execute Sample.engine Sample.backBuffer (Sample.env Sample.bloom))
    as [[[] s']|] eqn:Hrun; [|vm_compute in Hrun; discriminate Hrun].
  destruct (@additive_blend_state Sample.engine lit_1 5
              (S754_finite false 8388608 (-22)))
    as (_ & _ & _ & _ & _ & Hstage).
  destruct (Hstage _ _ _ _ Hrun) as (pass & vars & Hlast).
  exists s'. eexists. split; [reflexivity|exact Hlast].
Defined.

Lemma filter_is_high_pass_with_threshold_witness :
  exists s',
    @execute Sample.engine Sample.backBuffer (Sample.env Sample.bloom)
      = Some (tt, s')
    /\ getThreshold (mpFilter (this s')) = lit_1.
Proof.
  destruct (@execute Sample.engine Sample.backBuffer (Sample.env Sample.bloom))
    as [[[] s']|] eqn:Hrun; [|vm_compute in Hrun; discriminate Hrun].
  exists s'. split; [reflexivity|].
  destruct (@filter_is_high_pass_with_threshold Sample.engine lit_1 5
              (S754_finite false 8388608 (-22))) as (_ & _ & Hstage).
  destruct (Hstage _ _ _ _ Hrun) as [-> _]. reflexivity.
Defined.

Lemma blur_has_kernel_and_sigma_witness :
  exists s',
    @execute Sample.engine Sample.backBuffer (Sample.env Sample.bloom)
      = Some (tt, s')
    /\ getKernelWidth (mpBlur (this s')) = 5.
Proof.
  destruct (@execute Sample.engine Sample.backBuffer (Sample.env Sample.bloom))
    as [[[] s']|] eqn:Hrun; [|vm_compute in Hrun; discriminate Hrun].
  exists s'. split; [reflexivity|].
  destruct (@blur_has_kernel_and_sigma Sample.engine lit_1 5
              (S754_finite false 8388608 (-22))) as (_ & _ & Hstage).
  destruct (Hstage _ _ _ _ Hrun) as [-> _]. reflexivity.
Defined.

(** ** [renderUI] *)

Section RenderUI.
Context {E : Engine} {G : Type} {ops : GuiOps G}.

Ltac run_ui :=
  unfold renderUI;
  repeat match goal with
  | |- context [match ?u with Some _ => _ | None => _ end] =>
      is_var u; destruct u
  | |- context [beginGroup ?g ?n] =>
      destruct (beginGroup g n) as [[] ?]
  | |- context [addFloatVar ?g ?l ?v ?m] =>
      destruct (addFloatVar g l v m) as [[[] ?] ?]
  | |- context [addIntVar ?g ?l ?v ?a ?b ?c] =>
      destruct (addIntVar g l v a b c) as [[[] ?] ?]
  end;
  cbn [ui_events ui_this ui_gui app].

Ltac find_event :=
  cbn [In]; solve [repeat (first [left; reflexivity | right])].

Ltac in_events :=
  cbn [In]; intros;
  repeat match goal with
  | H : _ \/ _ |- _ => destruct H
  | H : False |- _ => destruct H
  | H : _ = _ |- _ => first [discriminate H | injection H as H; subst]
  end.

(** With an open group the kernel-width control is drawn: [addIntVar] is
    called with the label, the blur's kernel width, the range 1 to 15 and
    the step 2, and its answer is what the log holds. *)
Lemma renderUI_kernel_width_control (pGui : G) (uiGroup : option string)
    (b : Bloom) :
  groupOpen pGui uiGroup = true ->
  exists g changed res g',
    addIntVar g "Kernel Width" (wrap_int32 (getKernelWidth (mpBlur b))) 1 15 2
      = (changed, res, g')
    /\ In (EvIntVar "Kernel Width" (wrap_int32 (getKernelWidth (mpBlur b)))
             1 15 2 changed res)
          (ui_events (renderUI pGui uiGroup b)).
Proof.
  unfold renderUI, groupOpen. intros Hopen.
  destruct uiGroup as [name|];
    [ destruct (beginGroup pGui name) as [opened g0];
      cbn [fst] in Hopen; subst opened | ];
    (match goal with
     | |- context [addFloatVar ?g0 "Threshold" ?v ?m] =>
         destruct (addFloatVar g0 "Threshold" v m) as [[c1 v1] g1]
     end;
     destruct c1; cbn [mpBlur set_mpFilter];
     match goal with
     | |- context [addIntVar ?g ?l ?v ?lo ?hi ?st] =>
         destruct (addIntVar g l v lo hi st) as [[c2 v2] g2] eqn:Hk;
         exists g, c2, v2, g2; split; [exact Hk|]
     end;
     destruct c2;
     match goal with
     | |- context [addFloatVar ?g ?l ?v ?m] =>
         destruct (addFloatVar g l v m) as [[[] ?] ?]
     end;
     cbn [ui_events app]; find_event).
Qed.

(** With a GUI whose integer control, when it reports a change, leaves a
    value within the range it was given, what is written back is within
    1 and 15. *)
Lemma renderUI_written_within_range (pGui : G) (uiGroup : option string)
    (b : Bloom) :
  (forall g label var minVal maxVal step,
     minVal <= maxVal ->
     fst (fst (addIntVar g label var minVal maxVal step)) = true ->
     minVal <= snd (fst (addIntVar g label var minVal maxVal step)) <= maxVal) ->
  forall v, In (EvSetKernelWidth v) (ui_events (renderUI pGui uiGroup b)) ->
            1 <= v <= 15.
Proof.
  intros Hrange v. unfold renderUI.
  repeat match goal with
  | |- context [match ?u with Some _ => _ | None => _ end] =>
      is_var u; destruct u
  | |- context [beginGroup ?g ?n] =>
      destruct (beginGroup g n) as [[] ?]
  | |- context [addFloatVar ?g ?l ?v ?m] =>
      destruct (addFloatVar g l v m) as [[[] ?] ?]
  | |- context [addIntVar ?g ?l ?v ?a ?b ?c] =>
      let Hc := fresh "Hc" in
      pose proof (Hrange g l v a b c ltac:(lia)) as Hc;
      destruct (addIntVar g l v a b c) as [[[] ?] ?]
  end;
  cbn [ui_events app fst snd] in *; in_events;
  unfold wrap_uint32; rewrite Z.mod_small; lia.
Qed.

(** C7.  [renderUI] calls a setter only for a control that reported a
    change, and gives it the value the control left in the variable; when
    no control reports a change the effect is left as it was, so the
    threshold, the kernel width and the sigma are unchanged.  The only
    integer control is the one of the kernel width; with an open group it
    is drawn, through [addIntVar] with the blur's kernel width, the range 1
    to 15 and the step 2; and with a GUI whose integer control keeps a
    value it changes within the range it is given, the kernel width that
    is written back is between 1 and 15. *)
Theorem renderUI_writes_back_on_change (pGui : G) (uiGroup : option string)
    (b : Bloom) :
  let r := renderUI pGui uiGroup b in
  (forall v, In (EvSetThreshold v) (ui_events r) ->
     exists var, In (EvFloatVar "Threshold" var lit_0 true v) (ui_events r))
  /\ (forall v, In (EvSetKernelWidth v) (ui_events r) ->
     exists var k, In (EvIntVar "Kernel Width" var 1 15 2 true k) (ui_events r)
                   /\ v = wrap_uint32 k)
  /\ (forall v, In (EvSetSigma v) (ui_events r) ->
     exists var, In (EvFloatVar "Sigma" var lit_0_001 true v) (ui_events r))
  /\ ((forall label var minVal changed res,
         In (EvFloatVar label var minVal changed res) (ui_events r) ->
         changed = false) ->
      (forall label var minVal maxVal step changed res,
         In (EvIntVar label var minVal maxVal step changed res) (ui_events r) ->
         changed = false) ->
      ui_this r = b
      /\ getThreshold (mpFilter (ui_this r)) = getThreshold (mpFilter b)
      /\ getKernelWidth (mpBlur (ui_this r)) = getKernelWidth (mpBlur b)
      /\ getSigma (mpBlur (ui_this r)) = getSigma (mpBlur b))
  /\ (forall label var minVal maxVal step changed res,
        In (EvIntVar label var minVal maxVal step changed res) (ui_events r) ->
        label = "Kernel Width" /\ minVal = 1 /\ maxVal = 15 /\ step = 2)
  /\ (groupOpen pGui uiGroup = true ->
      exists g changed res g',
        addIntVar g "Kernel Width" (wrap_int32 (getKernelWidth (mpBlur b)))
          1 15 2 = (changed, res, g')
        /\ In (EvIntVar "Kernel Width"
                 (wrap_int32 (getKernelWidth (mpBlur b))) 1 15 2 changed res)
              (ui_events r))
  /\ ((forall g label var minVal maxVal step,
         minVal <= maxVal ->
         fst (fst (addIntVar g label var minVal maxVal step)) = true ->
         minVal <= snd (fst (addIntVar g label var minVal maxVal step))
                <= maxVal) ->
      forall v, In (EvSetKernelWidth v) (ui_events r) -> 1 <= v <= 15).
Proof.
  cbv zeta. repeat apply conj.
  - run_ui; in_events; eexists; find_event.
  - run_ui; in_events; eexists _, _; (split; [find_event | reflexivity]).
  - run_ui; in_events; eexists; find_event.
  - run_ui; intros HF HI;
      try (repeat split; reflexivity);
      exfalso; enough (true = false) by discriminate;
      first [ eapply HF; find_event | eapply HI; find_event ].
  - run_ui; in_events; repeat split.
  - apply renderUI_kernel_width_control.
  - apply renderUI_written_within_range.
Qed.

(** When the GUI keeps an integer control within the range it is given,
    the kernel width that [renderUI] writes back is between 1 and 15. *)
Lemma renderUI_kernel_width_in_range (pGui : G) (uiGroup : option string)
    (b : Bloom) :
  (forall g label var minVal maxVal step,
     minVal <= maxVal ->
     minVal <= snd (fst (addIntVar g label var minVal maxVal step)) <= maxVal) ->
  forall v, In (EvSetKernelWidth v) (ui_events (renderUI pGui uiGroup b)) ->
            1 <= v <= 15.
Proof.
  intros Hrange v. unfold renderUI.
  repeat match goal with
  | |- context [match ?u with Some _ => _ | None => _ end] =>
      is_var u; destruct u
  | |- context [beginGroup ?g ?n] =>
      destruct (beginGroup g n) as [[] ?]
  | |- context [addFloatVar ?g ?l ?v ?m] =>
      destruct (addFloatVar g l v m) as [[[] ?] ?]
  | |- context [addIntVar ?g ?l ?v ?a ?b ?c] =>
      let Hc := fresh "Hc" in
      pose proof (Hrange g l v a b c ltac:(lia)) as Hc;
      destruct (addIntVar g l v a b c) as [[[] ?] ?]
  end;
  cbn [ui_events app fst snd] in *; in_events;
  unfold wrap_uint32; rewrite Z.mod_small; lia.
Qed.

End RenderUI.

(** With nothing typed the effect is left as it was; the kernel-width
    control is drawn with the effect's kernel width, 5; and typing 40 into
    it writes 15 back. *)
Lemma renderUI_writes_back_on_change_witness :
  ui_this (@renderUI Sample.engine _ Sample.gui
             [Sample.Untouched; Sample.Untouched; Sample.Untouched]
             (Some "Bloom") Sample.bloom) = Sample.bloom
  /\ (exists changed res,
        In (EvIntVar "Kernel Width" 5 1 15 2 changed res)
           (ui_events (@renderUI Sample.engine _ Sample.gui
                         [Sample.Untouched; Sample.TypeInt 40]
                         (Some "Bloom") Sample.bloom)))
  /\ In (EvSetKernelWidth 15)
        (ui_events (@renderUI Sample.engine _ Sample.gui
                      [Sample.Untouched; Sample.TypeInt 40]
                      (Some "Bloom") Sample.bloom))
  /\ 1 <= 15 <= 15.
Proof.
  destruct (@renderUI_writes_back_on_change Sample.engine _ Sample.gui
              [Sample.Untouched; Sample.Untouched; Sample.Untouched]
              (Some "Bloom") Sample.bloom)
    as (_ & _ & _ & Hsame & _).
  destruct (@renderUI_writes_back_on_change Sample.engine _ Sample.gui
              [Sample.Untouched; Sample.TypeInt 40]
              (Some "Bloom") Sample.bloom)
    as (_ & _ & _ & _ & _ & Hdrawn & Hrange).
  assert (Hin : In (EvSetKernelWidth 15)
        (ui_events (@renderUI Sample.engine _ Sample.gui
                      [Sample.Untouched; Sample.TypeInt 40]
                      (Some "Bloom") Sample.bloom)))
    by (cbn; right; right; left; reflexivity).
  split; [|split; [|split; [exact Hin|]]].
  - apply Hsame.
    + cbn. intros label var minVal changed res [H|[H|[H|[]]]];
        first [discriminate H | injection H as <- <- <- <- <-; reflexivity].
    + cbn. intros label var minVal maxVal step changed res [H|[H|[H|[]]]];
        first [discriminate H | injection H as <- <- <- <- <- <- <-; reflexivity].
  - destruct (Hdrawn eq_refl) as (g & changed & res & g' & _ & Hev).
    exists changed, res. exact Hev.
  - apply Hrange; [|exact Hin].
    intros g label var minVal maxVal step Hle.
    destruct g as [|[| |v] g]; cbn; intros Hc; try discriminate Hc. lia.
Defined.

Example renderUI_clamps_kernel_width :
  ui_events (@renderUI Sample.engine _ Sample.gui
               [Sample.Untouched; Sample.TypeInt 40] None Sample.bloom)
  = [ EvFloatVar "Threshold" lit_1 lit_0 false lit_1;
      EvIntVar "Kernel Width" 5 1 15 2 true 15;
      EvSetKernelWidth 15;
      EvFloatVar "Sigma" (S754_finite false 8388608 (-22)) lit_0_001 false
        (S754_finite false 8388608 (-22)) ].
Proof. reflexivity. Qed.

(* ===================================================================== *)
(** * Further properties of the code *)

(** ** The size [updateLowResTexture] computes *)

(** X3.  For an input less than [2^16] wide the rounding of the [float]
    computation never shows: the texture after the call is
    [max (w / 4) (256 * w / h)] wide, in integer arithmetic, and
    [max (h / 4) 256] high. *)
Theorem low_res_size_is_integer_quotient s pTexture :
  0 < getWidth pTexture < 2 ^ 16 -> 0 < getHeight pTexture < 2 ^ 24 ->
  exists s' t,
    updateLowResTexture pTexture s = Some (tt, s')
    /\ mpLowResTexture (this s') = Some t
    /\ getWidth t = Z.max (getWidth pTexture / 4)
                          (256 * getWidth pTexture / getHeight pTexture)
    /\ getHeight t = Z.max (getHeight pTexture / 4) 256.
Proof.
  intros Hw Hh.
  destruct (updateLowResTexture_result s pTexture _
              (lowResWidth_exact pTexture Hw Hh))
    as (s' & t & Hrun & Hlow & Hwt & Hht & _).
  exists s', t. auto.
Qed.

Lemma low_res_size_is_integer_quotient_witness :
  exists s' t,
    updateLowResTexture Sample.hd720 (Sample.env Sample.bloom) = Some (tt, s')
    /\ mpLowResTexture (this s') = Some t
    /\ getWidth t = 455 /\ getHeight t = 256.
Proof.
  apply (low_res_size_is_integer_quotient (Sample.env Sample.bloom)
           Sample.hd720); cbn; lia.
Defined.

Lemma quotient_below_quarter w h :
  0 <= w -> 1024 <= h -> 256 * w / h <= w / 4.
Proof.
  intros Hw Hh.
  replace (w / 4) with (256 * w / 1024).
  - apply Z.div_le_compat_l; lia.
  - replace 1024 with (256 * 4) by reflexivity.
    apply Z.div_mul_cancel_l; lia.
Qed.

Lemma quarter_below_quotient w h :
  0 <= w -> 0 < h <= 1024 -> w / 4 <= 256 * w / h.
Proof.
  intros Hw Hh.
  replace (w / 4) with (256 * w / 1024).
  - apply Z.div_le_compat_l; lia.
  - replace 1024 with (256 * 4) by reflexivity.
    apply Z.div_mul_cancel_l; lia.
Qed.

(** X4.  From 1024 rows up the two floors of 256 play no part: the
    low-resolution size is the quarter of the input's, both ways. *)
Theorem quarter_resolution_from_1024_rows pTexture :
  0 < getWidth pTexture < 2 ^ 16 -> 1024 <= getHeight pTexture < 2 ^ 24 ->
  lowResWidth pTexture = Some (getWidth pTexture / 4)
  /\ lowResHeight pTexture = getHeight pTexture / 4.
Proof.
  intros Hw Hh. rewrite lowResWidth_exact by lia. unfold lowResHeight.
  pose proof (quotient_below_quarter (getWidth pTexture) (getHeight pTexture)
                ltac:(lia) ltac:(lia)).
  assert (256 <= getHeight pTexture / 4)
    by (apply Z.div_le_lower_bound; lia).
  split; [f_equal|]; lia.
Qed.

Lemma quarter_resolution_from_1024_rows_witness :
  lowResWidth Sample.uhd = Some 960 /\ lowResHeight Sample.uhd = 540.
Proof.
  apply (quarter_resolution_from_1024_rows Sample.uhd); cbn; lia.
Defined.

(** X5.  Up to 1024 rows the low-resolution texture is 256 rows high and
    keeps the input's aspect ratio: it is [256 * w / h] wide. *)
Theorem aspect_kept_up_to_1024_rows pTexture :
  0 < getWidth pTexture < 2 ^ 16 -> 0 < getHeight pTexture <= 1024 ->
  lowResWidth pTexture = Some (256 * getWidth pTexture / getHeight pTexture)
  /\ lowResHeight pTexture = 256.
Proof.
  intros Hw Hh. rewrite lowResWidth_exact by lia. unfold lowResHeight.
  pose proof (quarter_below_quotient (getWidth pTexture) (getHeight pTexture)
                ltac:(lia) ltac:(lia)).
  assert (getHeight pTexture / 4 <= 256)
    by (apply Z.div_le_upper_bound; lia).
  split; [f_equal|]; lia.
Qed.

Lemma aspect_kept_up_to_1024_rows_witness :
  lowResWidth Sample.hd720 = Some 455 /\ lowResHeight Sample.hd720 = 256.
Proof.
  apply (aspect_kept_up_to_1024_rows Sample.hd720); cbn; lia.
Defined.

(** X7.  The width has no floor of its own: for an input less than 4 wide
    and more than [256 * w] high both terms of the maximum are 0, and the
    low-resolution texture after the call is 0 wide. *)
Theorem narrow_tall_input_gets_zero_width s pTexture :
  0 < getWidth pTexture < 4 ->
  256 * getWidth pTexture < getHeight pTexture < 2 ^ 24 ->
  exists s' t,
    updateLowResTexture pTexture s = Some (tt, s')
    /\ mpLowResTexture (this s') = Some t
    /\ getWidth t = 0.
Proof.
  intros Hw Hh.
  assert (Hlw : lowResWidth pTexture = Some 0).
  { rewrite lowResWidth_exact by lia.
    rewrite (Z.div_small (getWidth pTexture) 4) by lia.
    rewrite (Z.div_small (256 * getWidth pTexture)) by lia. reflexivity. }
  destruct (updateLowResTexture_result s pTexture 0 Hlw)
    as (s' & t & Hrun & Hlow & Hwt & _).
  exists s', t. auto.
Qed.

Lemma narrow_tall_input_gets_zero_width_witness :
  exists s' t,
    updateLowResTexture Sample.sliver (Sample.env Sample.bloom) = Some (tt, s')
    /\ mpLowResTexture (this s') = Some t
    /\ getWidth t = 0.
Proof.
  apply (narrow_tall_input_gets_zero_width (Sample.env Sample.bloom)
           Sample.sliver); cbn; lia.
Defined.

(** ** What [updateLowResTexture] leaves alone *)

Lemma updateLowResTexture_members s pTexture s' :
  updateLowResTexture pTexture s = Some (tt, s') ->
  context s' = context s
  /\ mpBlur (this s') = mpBlur (this s)
  /\ mpBlitPass (this s') = mpBlitPass (this s)
  /\ mSrcTexLoc (this s') = mSrcTexLoc (this s)
  /\ mpVars (this s') = mpVars (this s)
  /\ mpAdditiveBlend (this s') = mpAdditiveBlend (this s)
  /\ mpSampler (this s') = mpSampler (this s)
  /\ mpFilter (this s') = mpFilter (this s)
  /\ mpFilterResultFbo (this s') = mpFilterResultFbo (this s).
Proof.
  rewrite updateLowResTexture_run.
  destruct (lowResWidth pTexture) as [w|]; [|discriminate].
  destruct (needsCreate _ _ _ _); intros [= <-]; cbn; repeat split.
Qed.

(** The texture after a call is the one before it, or a new one with the
    description that [updateLowResTexture] gives to [Texture::create2D]. *)
Lemma updateLowResTexture_texture s pTexture s' t :
  updateLowResTexture pTexture s = Some (tt, s') ->
  mpLowResTexture (this s') = Some t ->
  mpLowResTexture (this s) = Some t
  \/ exists w, t = lowResTexture s w (lowResHeight pTexture) (getFormat pTexture).
Proof.
  rewrite updateLowResTexture_run.
  destruct (lowResWidth pTexture) as [w|]; [|discriminate].
  destruct (needsCreate _ _ _ _); intros [= <-]; cbn.
  - intros [= <-]. right. eauto.
  - auto.
Qed.

(** X8.  [updateLowResTexture] submits no GPU work and touches no member
    but [mpLowResTexture]; it creates at most one texture, and a texture it
    creates has one array slice, one mip level and the bind flags
    [ShaderResource | RenderTarget]. *)
Theorem updateLowResTexture_touches_only_low_res s pTexture s' :
  updateLowResTexture pTexture s = Some (tt, s') ->
  context s' = context s
  /\ this s' = set_mpLowResTexture (mpLowResTexture (this s')) (this s)
  /\ ((textures s' = textures s
       /\ mpLowResTexture (this s') = mpLowResTexture (this s))
      \/ exists t,
           textures s' = t :: textures s
           /\ mpLowResTexture (this s') = Some t
           /\ getArraySize t = 1 /\ getMipCount t = 1
           /\ getBindFlags t = [ShaderResource; RenderTarget]).
Proof.
  rewrite updateLowResTexture_run.
  destruct (lowResWidth pTexture) as [w|]; [|discriminate].
  destruct (needsCreate _ _ _ _); intros [= <-]; cbn.
  - split; [reflexivity|]. split; [reflexivity|]. right.
    eexists. repeat split.
  - split; [reflexivity|]. split; [|left; split; reflexivity].
    destruct s as [[] ? ?]. reflexivity.
Qed.

Lemma updateLowResTexture_touches_only_low_res_witness :
  context Sample.afterFirstCall = context (Sample.env Sample.bloom)
  /\ length (textures Sample.afterFirstCall) = 2%nat.
Proof.
  split; [|reflexivity].
  apply (updateLowResTexture_touches_only_low_res (Sample.env Sample.bloom)
           Sample.fullHD Sample.afterFirstCall).
  vm_compute. reflexivity.
Defined.

(** ** When [execute] runs, and what it leaves behind *)

Lemma of_int_0 : of_int 0 = S754_zero false.
Proof. reflexivity. Qed.

(** Without rows the aspect ratio is a division by zero, infinite or NaN,
    and its conversion to [uint32_t] is undefined. *)
Lemma lowResWidth_zero_height pTexture :
  0 <= getWidth pTexture < 2 ^ 24 -> getHeight pTexture = 0 ->
  lowResWidth pTexture = None.
Proof.
  intros Hw Hh. unfold lowResWidth, aspectRatio. rewrite Hh, of_int_0.
  destruct (Z.eq_dec (getWidth pTexture) 0) as [->|Hnz].
  - reflexivity.
  - destruct (of_int_normal (getWidth pTexture) ltac:(lia))
      as (m & sw & -> & _). reflexivity.
Qed.

Section ExecuteMore.
Context {E : Engine}.

(** X1.  [execute] runs to its end on every frame buffer whose colour
    texture 0 has a width and a height between 1 and [2^24 - 1]: the
    texture is there to dereference and the conversion of the width is
    defined. *)
Theorem execute_runs s pFbo tex0 :
  getColorTexture pFbo 0 = Some tex0 ->
  0 < getWidth tex0 < 2 ^ 24 -> 0 < getHeight tex0 < 2 ^ 24 ->
  exists s', execute pFbo s = Some (tt, s').
Proof.
  intros Htex Hw Hh.
  destruct (lowResWidth_defined tex0 Hw Hh) as (w & Hlw).
  destruct (updateLowResTexture_result s tex0 w Hlw)
    as (s1 & low & Hupd & Hlow & _).
  eexists. exact (execute_run s pFbo tex0 s1 low Htex Hupd Hlow).
Qed.

(** X6.  On a frame buffer whose colour texture 0 has no rows the call has
    undefined behaviour: the aspect ratio is a [float] division by zero
    and [(uint32_t)] of the result is not defined. *)
Theorem execute_undefined_without_rows s pFbo tex0 :
  getColorTexture pFbo 0 = Some tex0 ->
  0 <= getWidth tex0 < 2 ^ 24 -> getHeight tex0 = 0 ->
  execute pFbo s = None.
Proof.
  intros Htex Hw Hh.
  destruct (execute pFbo s) as [[[] s']|] eqn:Hrun; [|reflexivity].
  destruct (execute_inv _ _ _ Hrun) as (t & s1 & low & Ht & Hupd & _).
  rewrite Htex in Ht. injection Ht as <-.
  rewrite updateLowResTexture_run, (lowResWidth_zero_height tex0 Hw Hh) in Hupd.
  discriminate.
Qed.

(** X10.  After [execute] the frame buffer of the filter's result has the
    filter's result as colour target 0 and its other targets as before,
    and the program variables of the blit bind the source texture to that
    result and keep their constants and samplers. *)
Theorem execute_binds_filter_result s pFbo s' :
  execute pFbo s = Some (tt, s') ->
  exists low result,
    mpLowResTexture (this s') = Some low
    /\ result = PassFilter_result (mpFilter (this s)) low
    /\ getColorTexture (mpFilterResultFbo (this s')) 0 = Some result
    /\ (forall i, i <> 0%nat ->
          getColorTexture (mpFilterResultFbo (this s')) i
          = getColorTexture (mpFilterResultFbo (this s)) i)
    /\ getSrv (mpVars (this s')) (mSrcTexLoc (this s')) 0 = Some (getSRV result)
    /\ constants (mpVars (this s')) = constants (mpVars (this s))
    /\ samplers (mpVars (this s')) = samplers (mpVars (this s)).
Proof.
  intros Hrun.
  destruct (execute_inv _ _ _ Hrun)
    as (tex0 & s1 & low & _ & Hupd & Hlow & Hf & _ & _ & ->).
  destruct (updateLowResTexture_members _ _ _ Hupd)
    as (_ & _ & _ & _ & Hv & _ & _ & _ & Hfbo).
  exists low, (PassFilter_result (mpFilter (this s)) low).
  cbn. rewrite Hf, Hv, Hfbo.
  split; [exact Hlow|]. split; [reflexivity|].
  unfold getColorTexture, getSrv. cbn.
  split; [apply lookup_insert_eq|].
  split; [intros i Hi; apply lookup_insert_ne; auto|].
  split; [apply lookup_insert_eq|]. split; reflexivity.
Qed.

(** X11.  Once a frame has run, a frame on any frame buffer whose colour
    texture 0 has the same width, height and format (the same frame buffer
    again, or the other one of a pair) creates no texture: it runs to its
    end with the same low-resolution texture object and the same textures
    on the device. *)
Theorem execute_reuses_low_res_texture s pFbo tex0 s1 pFbo' tex0' :
  execute pFbo s = Some (tt, s1) ->
  getColorTexture pFbo 0 = Some tex0 ->
  getColorTexture pFbo' 0 = Some tex0' ->
  getWidth tex0' = getWidth tex0 ->
  getHeight tex0' = getHeight tex0 ->
  getFormat tex0' = getFormat tex0 ->
  exists s2,
    execute pFbo' s1 = Some (tt, s2)
    /\ textures s2 = textures s1
    /\ mpLowResTexture (this s2) = mpLowResTexture (this s1).
Proof.
  intros Hrun Htex0 Htex' Hw' Hh' Hf'.
  destruct (execute_inv _ _ _ Hrun)
    as (t & s0 & low & Htex & Hupd & Hlow & _ & _ & _ & ->).
  rewrite Htex0 in Htex. injection Htex as <-.
  assert (Hlw : exists w, lowResWidth tex0 = Some w).
  { rewrite updateLowResTexture_run in Hupd.
    destruct (lowResWidth tex0); [eauto|discriminate]. }
  destruct Hlw as (w & Hlw).
  destruct (updateLowResTexture_result s tex0 w Hlw)
    as (s0' & low' & Hupd' & Hlow' & Hwl & Hhl & Hfl & _).
  rewrite Hupd in Hupd'. injection Hupd' as <-.
  rewrite Hlow in Hlow'. injection Hlow' as <-.
  assert (Hlw' : lowResWidth tex0' = Some w).
  { rewrite <- Hlw. unfold lowResWidth, aspectRatio. rewrite Hw', Hh'.
    reflexivity. }
  assert (Hlh' : lowResHeight tex0' = lowResHeight tex0).
  { unfold lowResHeight. rewrite Hh'. reflexivity. }
  set (s1 := afterExecute pFbo tex0 low s0).
  assert (Hupd1 : updateLowResTexture tex0' s1 = Some (tt, s1)).
  { rewrite updateLowResTexture_run, Hlw'.
    assert (Hl1 : mpLowResTexture (this s1) = Some low) by exact Hlow.
    rewrite Hl1. cbn [needsCreate].
    rewrite Hlh', Hf', Hwl, Hhl, Hfl, !Z.eqb_refl, N.eqb_refl. reflexivity. }
  exists (afterExecute pFbo' tex0' low s1).
  split; [exact (execute_run s1 pFbo' tex0' s1 low Htex' Hupd1 Hlow)|].
  split; reflexivity.
Qed.

End ExecuteMore.

Lemma execute_runs_witness :
  exists s', @execute Sample.engine Sample.backBuffer (Sample.env Sample.bloom)
             = Some (tt, s').
Proof.
  apply (@execute_runs Sample.engine (Sample.env Sample.bloom)
           Sample.backBuffer Sample.fullHD);
    [vm_compute; reflexivity | cbn; lia | cbn; lia].
Defined.

Lemma execute_undefined_without_rows_witness :
  @execute Sample.engine (attachColorTarget Fbo_create Sample.noRows 0)
    (Sample.env Sample.bloom) = None.
Proof.
  apply (@execute_undefined_without_rows Sample.engine (Sample.env Sample.bloom)
           (attachColorTarget Fbo_create Sample.noRows 0) Sample.noRows);
    [vm_compute; reflexivity | cbn; lia | reflexivity].
Defined.

Lemma execute_keeps_configuration_witness :
  exists s',
    @execute Sample.engine Sample.backBuffer (Sample.env Sample.bloom)
      = Some (tt, s')
    /\ mpAdditiveBlend (this s') = mpAdditiveBlend Sample.bloom.
Proof.
  assert (Hrun : { s' | @execute Sample.engine Sample.backBuffer
                          (Sample.env Sample.bloom) = Some (tt, s') })
    by (eexists; vm_compute; reflexivity).
  destruct Hrun as [s' Hrun]. exists s'. split; [exact Hrun|].
  apply (@execute_keeps_configuration Sample.engine (Sample.env Sample.bloom)
           Sample.backBuffer s' Hrun).
Defined.

Lemma execute_binds_filter_result_witness :
  exists s' result,
    @execute Sample.engine Sample.backBuffer (Sample.env Sample.bloom)
      = Some (tt, s')
    /\ getColorTexture (mpFilterResultFbo (this s')) 0 = Some result.
Proof.
  assert (Hrun : { s' | @execute Sample.engine Sample.backBuffer
                          (Sample.env Sample.bloom) = Some (tt, s') })
    by (eexists; vm_compute; reflexivity).
  destruct Hrun as [s' Hrun].
  destruct (@execute_binds_filter_result Sample.engine
              (Sample.env Sample.bloom) Sample.backBuffer s' Hrun)
    as (low & result & _ & _ & Hfbo & _).
  exists s', result. split; [exact Hrun|exact Hfbo].
Defined.

Lemma execute_reuses_low_res_texture_witness :
  exists s1 s2,
    @execute Sample.engine Sample.backBuffer (Sample.env Sample.bloom)
      = Some (tt, s1)
    /\ @execute Sample.engine Sample.otherBuffer s1 = Some (tt, s2)
    /\ textures s2 = textures s1.
Proof.
  assert (Hrun : { s1 | @execute Sample.engine Sample.backBuffer
                          (Sample.env Sample.bloom) = Some (tt, s1) })
    by (eexists; vm_compute; reflexivity).
  destruct Hrun as [s1 Hrun].
  destruct (@execute_reuses_low_res_texture Sample.engine
              (Sample.env Sample.bloom) Sample.backBuffer Sample.fullHD s1
              Sample.otherBuffer (Sample.texture 7 1920 1080 Sample.RGBA8Unorm)
              Hrun ltac:(vm_compute; reflexivity)
              ltac:(vm_compute; reflexivity) eq_refl eq_refl eq_refl)
    as (s2 & Hrun2 & Htex & _).
  exists s1, s2. split; [exact Hrun|]. split; assumption.
Defined.

(** ** The configuration survives every call *)

Section Reachable.
Context {E : Engine}.

Lemma renderUI_members {G : Type} {ops : GuiOps G} (pGui : G) uiGroup b :
  let b' := ui_this (renderUI pGui uiGroup b) in
  mpBlitPass b' = mpBlitPass b
  /\ mSrcTexLoc b' = mSrcTexLoc b
  /\ mpVars b' = mpVars b
  /\ mpAdditiveBlend b' = mpAdditiveBlend b
  /\ mpSampler b' = mpSampler b
  /\ mpFilterResultFbo b' = mpFilterResultFbo b
  /\ mpLowResTexture b' = mpLowResTexture b.
Proof.
  cbv zeta. unfold renderUI.
  repeat match goal with
  | |- context [match ?u with Some _ => _ | None => _ end] =>
      is_var u; destruct u
  | |- context [beginGroup ?g ?n] =>
      destruct (beginGroup g n) as [[] ?]
  | |- context [addFloatVar ?g ?l ?v ?m] =>
      destruct (addFloatVar g l v m) as [[[] ?] ?]
  | |- context [addIntVar ?g ?l ?v ?a ?b ?c] =>
      destruct (addIntVar g l v a b c) as [[[] ?] ?]
  end; cbn; repeat split.
Qed.

(** X12.  Whatever calls of [execute] and [renderUI] follow [create], with
    whatever frame buffers and user input, the effect keeps what the
    constructor set up: the blend state of render target 0 (additive in
    RGB, [SrcAlpha] / [OneMinusSrcAlpha] in alpha), the blit shaders, the
    linear clamping sampler bound as [gSampler], and the source rectangle
    [gOffset = 0], [gScale = 1]; and its low-resolution texture, once
    there is one, is at least 256 rows high, with one array slice, one mip
    level and the bind flags [ShaderResource | RenderTarget]. *)
Theorem reachable_keeps_configuration b :
  reachable b ->
  getRtDesc (mpAdditiveBlend b) 0
    = mkRenderTargetDesc true Add Add One One SrcAlpha OneMinusSrcAlpha
  /\ mpBlitPass b = FullScreenPass_create "Framework/Shaders/Blit.vs.slang"
                                         "Framework/Shaders/Blit.ps.slang"
  /\ samplerDesc (mpSampler b)
     = mkSamplerDesc Linear Linear Linear Clamp Clamp Clamp
  /\ samplers (mpVars b) !! "gSampler" = Some (mpSampler b)
  /\ constants (mpVars b) !! ("SrcRectCB", "gOffset") = Some (lit_0, lit_0)
  /\ constants (mpVars b) !! ("SrcRectCB", "gScale") = Some (lit_1, lit_1)
  /\ forall t, mpLowResTexture b = Some t ->
       256 <= getHeight t
       /\ getArraySize t = 1 /\ getMipCount t = 1
       /\ getBindFlags t = [ShaderResource; RenderTarget].
Proof.
  induction 1 as [threshold kernelSize sigma
                 | b ctx texs pFbo s' Hb IH Hrun
                 | G ops pGui uiGroup b Hb IH].
  - do 6 (split; [reflexivity|]). intros t [=].
  - destruct IH as (Hrt & Hpass & Hsd & Hs & Hoff & Hsc & Hlow).
    destruct (execute_inv _ _ _ Hrun)
      as (tex0 & s1 & low & _ & Hupd & Hl & _ & _ & _ & ->).
    destruct (updateLowResTexture_members _ _ _ Hupd)
      as (_ & _ & Hp & _ & Hv & Ha & Hsm & _).
    cbn [this] in *. cbn. rewrite Hp, Hv, Ha, Hsm.
    repeat (split; [assumption|]).
    intros t Ht.
    destruct (updateLowResTexture_texture _ _ _ _ Hupd Ht) as [Hold|(w & ->)].
    + apply Hlow. exact Hold.
    + cbn. unfold lowResHeight. repeat split. lia.
  - destruct IH as (Hrt & Hpass & Hsd & Hs & Hoff & Hsc & Hlow).
    destruct (renderUI_members pGui uiGroup b)
      as (Hp & _ & Hv & Ha & Hsm & _ & Hl).
    rewrite Hp, Hv, Ha, Hsm, Hl. repeat (split; [assumption|]). exact Hlow.
Qed.

End Reachable.

Lemma reachable_keeps_configuration_witness :
  blendEnabled
    (getRtDesc
       (mpAdditiveBlend
          (ui_this (@renderUI Sample.engine _ Sample.gui
                      [Sample.TypeFloat lit_256; Sample.TypeInt 9]
                      (Some "Bloom") Sample.bloom))) 0) = true.
Proof.
  destruct (@reachable_keeps_configuration Sample.engine _
              (@reach_renderUI Sample.engine _ Sample.gui
                 [Sample.TypeFloat lit_256; Sample.TypeInt 9] (Some "Bloom")
                 Sample.bloom
                 (@reach_create Sample.engine lit_1 5
                    (S754_finite false 8388608 (-22)))))
    as (Hrt & _).
  rewrite Hrt. reflexivity.
Defined.

(** ** More on [renderUI] *)


Section RenderUIMore.
Context {E : Engine} {G : Type} {ops : GuiOps G}.

Ltac run_ui :=
  unfold renderUI, groupOpen;
  repeat match goal with
  | |- context [match ?u with Some _ => _ | None => _ end] =>
      is_var u; destruct u
  | |- context [beginGroup ?g ?n] =>
      destruct (beginGroup g n) as [[] ?]
  | |- context [addFloatVar ?g ?l ?v ?m] =>
      destruct (addFloatVar g l v m) as [[[] ?] ?]
  | |- context [addIntVar ?g ?l ?v ?a ?b ?c] =>
      destruct (addIntVar g l v a b c) as [[[] ?] ?]
  end;
  cbn [ui_events ui_this ui_gui app fst snd].

Ltac in_events :=
  cbn [In]; intros;
  repeat match goal with
  | H : _ \/ _ |- _ => destruct H
  | H : False |- _ => destruct H
  | H : _ = _ |- _ => first [discriminate H | injection H as H; subst]
  end.

Ltac find_event :=
  cbn [In]; solve [repeat (first [left; reflexivity | right])].

(** X13.  The effect [renderUI] returns is the effect it was given with
    the setter calls of the log applied in the order of the log: nothing
    else of the effect changes, and a later control sees the earlier
    writes. *)
Theorem renderUI_state_is_log_applied (pGui : G) uiGroup b :
  ui_this (renderUI pGui uiGroup b)
  = fold_left applyEvent (ui_events (renderUI pGui uiGroup b)) b.
Proof. run_ui; reflexivity. Qed.

(** X17.  [renderUI] draws no control when it is given a group that
    [beginGroup] reports closed, and otherwise exactly three, once each:
    the threshold, the kernel width and the sigma, in this order. *)
Theorem renderUI_draws_controls_in_order (pGui : G) uiGroup b :
  omap controlLabel (ui_events (renderUI pGui uiGroup b))
  = if groupOpen pGui uiGroup
    then ["Threshold"; "Kernel Width"; "Sigma"]
    else [].
Proof. run_ui; reflexivity. Qed.

(** X15.  Every change a control reports is written back: after a control
    that returned true the log has the call of its setter, with the value
    the control left (converted to [uint32_t] for the kernel width). *)
Theorem renderUI_writes_every_change_back (pGui : G) uiGroup b :
  let events := ui_events (renderUI pGui uiGroup b) in
  (forall var minVal res,
     In (EvFloatVar "Threshold" var minVal true res) events ->
     In (EvSetThreshold res) events)
  /\ (forall label var minVal maxVal step res,
       In (EvIntVar label var minVal maxVal step true res) events ->
       In (EvSetKernelWidth (wrap_uint32 res)) events)
  /\ (forall var minVal res,
       In (EvFloatVar "Sigma" var minVal true res) events ->
       In (EvSetSigma res) events).
Proof.
  cbv zeta. repeat apply conj; run_ui; in_events; find_event.
Qed.


(** X14.  With a GUI whose integer control, when it reports a change,
    leaves a value within the range it was given, every kernel width that
    [renderUI] writes back is between 1 and 15. *)
Theorem renderUI_kernel_width_written_in_range (pGui : G) uiGroup b :
  (forall g label var minVal maxVal step,
     minVal <= maxVal ->
     fst (fst (addIntVar g label var minVal maxVal step)) = true ->
     minVal <= snd (fst (addIntVar g label var minVal maxVal step)) <= maxVal) ->
  forall v, In (EvSetKernelWidth v) (ui_events (renderUI pGui uiGroup b)) ->
            1 <= v <= 15.
Proof.
  intros Hrange v. unfold renderUI.
  repeat match goal with
  | |- context [match ?u with Some _ => _ | None => _ end] =>
      is_var u; destruct u
  | |- context [beginGroup ?g ?n] =>
      destruct (beginGroup g n) as [[] ?]
  | |- context [addFloatVar ?g ?l ?v ?m] =>
      destruct (addFloatVar g l v m) as [[[] ?] ?]
  | |- context [addIntVar ?g ?l ?v ?a ?b ?c] =>
      let Hc := fresh "Hc" in
      pose proof (Hrange g l v a b c ltac:(lia)) as Hc;
      destruct (addIntVar g l v a b c) as [[[] ?] ?]
  end;
  cbn [ui_events app fst snd] in *; in_events;
  unfold wrap_uint32; rewrite Z.mod_small; lia.
Qed.

End RenderUIMore.

Lemma renderUI_writes_every_change_back_witness :
  In (EvSetKernelWidth 9)
     (ui_events (@renderUI Sample.engine _ Sample.gui
                   [Sample.Untouched; Sample.TypeInt 9] None Sample.bloom)).
Proof.
  apply (@renderUI_writes_every_change_back Sample.engine _ Sample.gui
           [Sample.Untouched; Sample.TypeInt 9] None Sample.bloom)
    with (label := "Kernel Width"%string) (var := 5) (minVal := 1)
         (maxVal := 15) (step := 2) (res := 9).
  cbn. right. left. reflexivity.
Defined.


Lemma renderUI_kernel_width_written_in_range_witness :
  In (EvSetKernelWidth 15)
     (ui_events (@renderUI Sample.engine _ Sample.gui
                   [Sample.Untouched; Sample.TypeInt 40] None Sample.bloom))
  /\ 1 <= 15 <= 15.
Proof.
  assert (Hin : In (EvSetKernelWidth 15)
     (ui_events (@renderUI Sample.engine _ Sample.gui
                   [Sample.Untouched; Sample.TypeInt 40] None Sample.bloom)))
    by (cbn; right; right; left; reflexivity).
  split; [exact Hin|].
  apply (@renderUI_kernel_width_written_in_range Sample.engine _ Sample.gui
           [Sample.Untouched; Sample.TypeInt 40] None Sample.bloom);
    [|exact Hin].
  intros g label var minVal maxVal step Hle.
  destruct g as [|[| |v] g]; cbn; intros Hc; try discriminate Hc. lia.
Defined.
